(** * SQLite tool service ([mcp_servers/sqlite_tools.py])

    A shallow embedding of the seven tool operations of the service
    ([execute_query], [execute_modification], [create_table], [get_schema],
    [insert_data], [get_table_data], [backup_database]) together with the
    properties of the service's specification.

    The Python functions are translated statement by statement into a state
    and exception monad over a [World] that holds the database files, the
    connection handles, the clock and the files written.  The [sqlite3]
    engine is not part of the repository: it is a parameter ([Platform]),
    and [MiniSqlite] is a small instance of it used to run the operations on
    concrete inputs. *)

From Stdlib Require Import String Ascii List ZArith Lia Bool.
From Stdlib Require Import Decimal DecimalString DecimalZ DecimalPos.
Import ListNotations.

#[local] Set Warnings "-register-all".
#[local] Open Scope list_scope.
#[local] Open Scope string_scope.

(* ================================================================= *)
(** ** Python values *)

(** The values that travel through the service: SQLite's scalars ([None],
    [int], [float], [str], [bytes]) and the lists and dicts the results are
    built from.  A dict is an association list in insertion order, as
    Python's [dict] iterates; its keys are strings. *)
Inductive pyval : Type :=
| PyNone
| PyBool (b : bool)
| PyInt (z : Z)
| PyFloat (bits : Z)
| PyStr (s : string)
| PyBytes (b : list Byte.byte)
| PyList (l : list pyval)
| PyDict (items : list (string * pyval)).

(** [d[k]] as an optional value. *)
Fixpoint dict_get {V : Type} (d : list (string * V)) (k : string) : option V :=
  match d with
  | [] => None
  | (k', v) :: rest => if String.eqb k k' then Some v else dict_get rest k
  end.

(** [d[k] = v]: an existing key keeps its position and takes the new value,
    a new key goes to the end. *)
Fixpoint dict_set {V : Type} (d : list (string * V)) (k : string) (v : V)
  : list (string * V) :=
  match d with
  | [] => [(k, v)]
  | (k', v') :: rest =>
      if String.eqb k k' then (k', v) :: rest else (k', v') :: dict_set rest k v
  end.

(** [dict(pairs)]: the pairs inserted from left to right. *)
Definition dict_of_items {V : Type} (items : list (string * V)) : list (string * V) :=
  fold_left (fun d kv => dict_set d (fst kv) (snd kv)) items [].

Definition dict_keys {V : Type} (d : list (string * V)) : list string := map fst d.
Definition dict_values {V : Type} (d : list (string * V)) : list V := map snd d.

(** Field access on a result object; [None] when the value is not a dict or
    has no such key. *)
Definition field (r : pyval) (k : string) : option pyval :=
  match r with
  | PyDict items => dict_get items k
  | _ => None
  end.

(** [len(x)] as a Python integer. *)
Definition len {A : Type} (l : list A) : Z := Z.of_nat (length l).

(** [str(n)] for an integer: decimal digits, ["-"] in front of a negative
    number, ["0"] for zero. *)
Definition str_of_int (z : Z) : string := NilZero.string_of_int (Z.to_int z).

(** [", ".join(l)] and friends. *)
Definition join (sep : string) (l : list string) : string := String.concat sep l.

(** Truthiness of a value, as [bool(x)] and [if x:] compute it. *)
Definition truthy (v : pyval) : bool :=
  match v with
  | PyNone => false
  | PyBool b => b
  | PyInt z => negb (Z.eqb z 0)
  | PyFloat bits => negb (Z.eqb (Z.land bits (Z.ones 63)) 0)
  | PyStr s => negb (String.eqb s "")
  | PyBytes b => match b with [] => false | _ => true end
  | PyList l => match l with [] => false | _ => true end
  | PyDict d => match d with [] => false | _ => true end
  end.

(** [json.dump] accepts every value of the model except [bytes]. *)
Fixpoint json_serializable (v : pyval) : bool :=
  match v with
  | PyBytes _ => false
  | PyList l => forallb json_serializable l
  | PyDict items =>
      forallb (fun kv : string * pyval => let (_, x) := kv in json_serializable x) items
  | _ => true
  end.

(* ================================================================= *)
(** ** Exceptions *)

(** The classes the handlers of the service tell apart.  [Sqlite3Error]
    stands for [sqlite3.Error] and all its subclasses; every class is a
    subclass of [Exception]. *)
Inductive exn_class : Type :=
| Sqlite3Error
| TypeError
| IndexError
| KeyError
| OSError
| OtherException.

Record exn : Type := Exn { exn_kind : exn_class; exn_msg : string }.

Definition isinstance_sqlite3_Error (e : exn) : bool :=
  match exn_kind e with
  | Sqlite3Error => true
  | _ => false
  end.

Definition isinstance_Exception (e : exn) : bool := true.

(* ================================================================= *)
(** ** The platform: engine and runtime *)

(** A row as [sqlite3.Row] presents it: the column names of the result with
    their values, in select-list order. *)
Definition Row : Type := list (string * pyval).

(** What a cursor holds after [execute]. *)
Record Cursor : Type := {
  cur_rows : list Row;
  cur_rowcount : Z;
  cur_lastrowid : pyval
}.

(** The [sqlite3] engine and the pieces of the Python runtime the service
    formats text with.

    [engine_execute d stmt params] runs one statement on the content [d]:
    it raises, leaving the content as it was (the engine undoes a failed
    statement), or it returns the new content and the cursor.
    [table_names] and [table_rows] observe a content: the tables it holds
    and the rows of one of them.  [bare_name] tells the names the engine
    reads unquoted as that same name, and [keeps_tail] the texts after
    which the engine still reads what follows them in a statement: the
    texts that open no comment. *)
Record Platform : Type := {
  database : Type;
  engine_execute : database -> string -> list pyval -> exn + (database * Cursor);
  table_names : database -> list string;
  table_rows : database -> string -> list Row;
  bare_name : string -> bool;
  keeps_tail : string -> bool;
  isoformat : nat -> string;
  strftime : nat -> string;
  str_opaque : pyval -> string
}.

(** The service's constant. *)
Definition DEFAULT_DB_PATH : string := "database.db".

Section Service.

Variable P : Platform.

(** [str(v)], as an f-string formats a value.  Exact on [None], booleans,
    integers and text; the platform formats the other values. *)
Definition py_str (v : pyval) : string :=
  match v with
  | PyNone => "None"
  | PyBool true => "True"
  | PyBool false => "False"
  | PyInt z => str_of_int z
  | PyStr s => s
  | _ => str_opaque P v
  end.

(* ================================================================= *)
(** ** The world *)

(** A path either cannot be opened as a database or holds a content (a
    path with no file holds the empty content the engine creates). *)
Inductive DbFile : Type :=
| Unopenable (msg : string)
| Content (d : database P).

(** A connection handle: the file it is bound to, its working content (the
    committed content plus the changes of the pending transaction) and
    whether [close] has been called on it. *)
Record Conn : Type := {
  conn_path : string;
  conn_work : database P;
  conn_closed : bool
}.

(** A file written by [backup_database]: opened and truncated, or holding
    the dumped value. *)
Inductive Artifact : Type :=
| Truncated
| Json (v : pyval).

(** What the service asks of the engine and the file system, in order. *)
Inductive Event : Type :=
| EvConnect (db_path : string)
| EvExecute (stmt : string) (params : list pyval)
| EvCommit
| EvRollback
| EvClose
| EvOpenWrite (path : string)
| EvDump (path : string).

Record World : Type := {
  disk : string -> DbFile;
  conns : list Conn;
  clock : nat;
  write_fault : string -> option string;
  artifacts : string -> option Artifact;
  events : list Event
}.

Definition log (ev : Event) (w : World) : World :=
  {| disk := disk w; conns := conns w; clock := clock w;
     write_fault := write_fault w; artifacts := artifacts w;
     events := (events w ++ [ev])%list |}.

Definition set_conns (cs : list Conn) (w : World) : World :=
  {| disk := disk w; conns := cs; clock := clock w;
     write_fault := write_fault w; artifacts := artifacts w;
     events := events w |}.

Definition set_disk (path : string) (f : DbFile) (w : World) : World :=
  {| disk := fun p => if String.eqb p path then f else disk w p;
     conns := conns w; clock := clock w;
     write_fault := write_fault w; artifacts := artifacts w;
     events := events w |}.

Definition set_artifact (path : string) (a : Artifact) (w : World) : World :=
  {| disk := disk w; conns := conns w; clock := clock w;
     write_fault := write_fault w;
     artifacts := fun p => if String.eqb p path then Some a else artifacts w p;
     events := events w |}.

Definition tick (w : World) : World :=
  {| disk := disk w; conns := conns w; clock := S (clock w);
     write_fault := write_fault w; artifacts := artifacts w;
     events := events w |}.

(** Replace the [i]-th element of a list; nothing happens out of range. *)
Fixpoint list_set {A : Type} (l : list A) (i : nat) (x : A) : list A :=
  match l, i with
  | [], _ => []
  | _ :: rest, O => x :: rest
  | y :: rest, S j => y :: list_set rest j x
  end.

(* ================================================================= *)
(** ** The monad of the service: state and exceptions *)

Definition M (A : Type) : Type := World -> (exn + A) * World.

Definition ret {A : Type} (a : A) : M A := fun w => (inr a, w).

Definition raise {A : Type} (e : exn) : M A := fun w => (inl e, w).

Definition bind {A B : Type} (m : M A) (k : A -> M B) : M B :=
  fun w =>
    match m w with
    | (inr a, w') => k a w'
    | (inl e, w') => (inl e, w')
    end.

(** [try: body  except ...:] with the handler clauses as a partial function
    of the exception: an exception no clause matches propagates. *)
Definition try_except {A : Type} (body : M A) (clauses : exn -> option (M A)) : M A :=
  fun w =>
    match body w with
    | (inr a, w') => (inr a, w')
    | (inl e, w') =>
        match clauses e with
        | Some handler => handler w'
        | None => (inl e, w')
        end
    end.

(** A [for] loop that threads an accumulator and stops at the first
    exception. *)
Fixpoint for_each {A S : Type} (l : list A) (s : S) (body : A -> S -> M S) : M S :=
  match l with
  | [] => ret s
  | x :: rest => bind (body x s) (fun s' => for_each rest s' body)
  end.

(** A list comprehension whose element expression may raise. *)
Fixpoint comprehension {A B : Type} (f : A -> M B) (l : list A) : M (list B) :=
  match l with
  | [] => ret []
  | x :: rest =>
      bind (f x) (fun y => bind (comprehension f rest) (fun ys => ret (y :: ys)))
  end.

#[local] Notation "x <- m ;; k" := (bind m (fun x => k))
  (at level 61, m at next level, right associativity).

(* ================================================================= *)
(** ** The calls into [sqlite3], [datetime], [open] and [json] *)

(** The exception of a call on a handle the table does not hold.  No
    operation reaches it: every handle used comes from
    [get_db_connection] in the same call. *)
Definition no_such_handle : exn := Exn Sqlite3Error "no such connection".

(** [get_db_connection(db_path)]: [sqlite3.connect] raises an
    [sqlite3.Error] when the file cannot be opened, and otherwise returns a
    new handle on the file's content.  Setting [row_factory] changes how
    rows are presented, which [Row] already accounts for. *)
Definition get_db_connection (db_path : string) : M nat :=
  fun w =>
    match disk w db_path with
    | Unopenable msg => (inl (Exn Sqlite3Error msg), w)
    | Content d =>
        (inr (length (conns w)),
         log (EvConnect db_path)
           (set_conns
              (conns w ++
                 [{| conn_path := db_path; conn_work := d; conn_closed := false |}])%list
              w))
    end.

(** [cursor = conn.cursor(); cursor.execute(stmt, params)]. *)
Definition cursor_execute (conn : nat) (stmt : string) (params : list pyval)
  : M Cursor :=
  fun w =>
    match nth_error (conns w) conn with
    | None => (inl no_such_handle, w)
    | Some c =>
        match engine_execute P (conn_work c) stmt params with
        | inl e => (inl e, log (EvExecute stmt params) w)
        | inr (d', cur) =>
            (inr cur,
             log (EvExecute stmt params)
               (set_conns
                  (list_set (conns w) conn
                     {| conn_path := conn_path c; conn_work := d';
                        conn_closed := conn_closed c |})
                  w))
        end
    end.

(** [conn.commit()]: the working content becomes the file's content. *)
Definition conn_commit (conn : nat) : M unit :=
  fun w =>
    match nth_error (conns w) conn with
    | None => (inl no_such_handle, w)
    | Some c =>
        (inr tt, log EvCommit (set_disk (conn_path c) (Content (conn_work c)) w))
    end.

(** [conn.rollback()]: the working content goes back to the file's. *)
Definition conn_rollback (conn : nat) : M unit :=
  fun w =>
    match nth_error (conns w) conn with
    | None => (inl no_such_handle, w)
    | Some c =>
        match disk w (conn_path c) with
        | Content d =>
            (inr tt,
             log EvRollback
               (set_conns
                  (list_set (conns w) conn
                     {| conn_path := conn_path c; conn_work := d;
                        conn_closed := conn_closed c |})
                  w))
        | Unopenable _ => (inr tt, log EvRollback w)
        end
    end.

(** [conn.close()].  The handle API has it; the service never calls it. *)
Definition conn_close (conn : nat) : M unit :=
  fun w =>
    match nth_error (conns w) conn with
    | None => (inl no_such_handle, w)
    | Some c =>
        (inr tt,
         log EvClose
           (set_conns
              (list_set (conns w) conn
                 {| conn_path := conn_path c; conn_work := conn_work c;
                    conn_closed := true |})
              w))
    end.

(** [with get_db_connection(db_path) as conn: body].  The context manager
    of [sqlite3.Connection] ends the transaction and nothing more: on a
    normal exit (also by [return]) it commits, on an exception it rolls
    back and lets the exception through.  It does not close the handle. *)
Definition with_connection {A : Type} (db_path : string) (body : nat -> M A) : M A :=
  conn <- get_db_connection db_path ;;
  (fun w =>
     match body conn w with
     | (inr a, w1) =>
         match conn_commit conn w1 with
         | (inr _, w2) => (inr a, w2)
         | (inl e, w2) => (inl e, w2)
         end
     | (inl e, w1) =>
         match conn_rollback conn w1 with
         | (inr _, w2) => (inl e, w2)
         | (inl e', w2) => (inl e', w2)
         end
     end).

(** [datetime.now()]: the reading of the clock, which moves on. *)
Definition now : M nat := fun w => (inr (clock w), tick w).

(** [row[i]] on an [sqlite3.Row]. *)
Definition row_index (r : Row) (i : nat) : M pyval :=
  match nth_error r i with
  | Some (_, v) => ret v
  | None => raise (Exn IndexError "No item with that key")
  end.

(** [cursor.fetchone()[0]]. *)
Definition fetchone_0 (cur : Cursor) : M pyval :=
  match cur_rows cur with
  | [] => raise (Exn TypeError "'NoneType' object is not subscriptable")
  | r :: _ => row_index r 0
  end.

(** [dict(row)]. *)
Definition dict_of_row (r : Row) : pyval := PyDict (dict_of_items r).

(** [with open(path, 'w', encoding='utf-8') as f: json.dump(v, f, ...)].
    Opening truncates the file; a value [json] cannot serialize raises a
    [TypeError] and leaves the file truncated. *)
Definition write_json (path : string) (v : pyval) : M unit :=
  fun w =>
    match write_fault w path with
    | Some msg => (inl (Exn OSError msg), w)
    | None =>
        let w1 := log (EvOpenWrite path) (set_artifact path Truncated w) in
        if json_serializable v
        then (inr tt, log (EvDump path) (set_artifact path (Json v) w1))
        else (inl (Exn TypeError "Object of type bytes is not JSON serializable"), w1)
    end.

(** [cursor.execute(query, params) if params else cursor.execute(query)]:
    [None] and the empty list both take the second branch. *)
Definition execute_with_optional_params (conn : nat) (query : string)
    (params : option (list pyval)) : M Cursor :=
  match params with
  | Some (p :: ps) => cursor_execute conn query (p :: ps)
  | _ => cursor_execute conn query []
  end.

(** The two handler clauses six of the operations end with:
    [except sqlite3.Error as e] first, [except Exception as e] second. *)
Definition except_sqlite_then_exception (context : list (string * pyval))
  : exn -> option (M pyval) :=
  fun e =>
    if isinstance_sqlite3_Error e then
      Some (ret (PyDict (List.app [("success", PyBool false);
                              ("error", PyStr ("SQLite error: " ++ exn_msg e))]
                             context)))
    else if isinstance_Exception e then
      Some (ret (PyDict (List.app [("success", PyBool false);
                              ("error", PyStr ("Unexpected error: " ++ exn_msg e))]
                             context)))
    else None.

(* ================================================================= *)
(** ** The seven operations *)

(** Each operation is one [try] statement: its suite comes first (the
    definition named [..._try]), then the operation with its handlers. *)
Definition execute_query_try (query : string) (db_path : string)
    (params : option (list pyval)) : M pyval :=
  with_connection db_path (fun conn =>
    cursor <- execute_with_optional_params conn query params ;;
    let rows := cur_rows cursor in
    let result_rows := map dict_of_row rows in
    ts <- now ;;
    ret (PyDict [("success", PyBool true);
                 ("rows", PyList result_rows);
                 ("row_count", PyInt (len result_rows));
                 ("query", PyStr query);
                 ("timestamp", PyStr (isoformat P ts))])).

Definition execute_query (query : string) (db_path : string)
    (params : option (list pyval)) : M pyval :=
  try_except (execute_query_try query db_path params)
    (except_sqlite_then_exception [("query", PyStr query)]).

Definition execute_modification_try (query : string) (db_path : string)
    (params : option (list pyval)) : M pyval :=
  with_connection db_path (fun conn =>
    cursor <- execute_with_optional_params conn query params ;;
    _ <- conn_commit conn ;;
    ts <- now ;;
    ret (PyDict [("success", PyBool true);
                 ("affected_rows", PyInt (cur_rowcount cursor));
                 ("last_row_id", cur_lastrowid cursor);
                 ("query", PyStr query);
                 ("timestamp", PyStr (isoformat P ts))])).

Definition execute_modification (query : string) (db_path : string)
    (params : option (list pyval)) : M pyval :=
  try_except (execute_modification_try query db_path params)
    (except_sqlite_then_exception [("query", PyStr query)]).

(** The loop of [create_table] over [columns.items()]. *)
Definition column_defs (columns : list (string * string)) : list string :=
  fold_left (fun defs c => List.app defs [fst c ++ " " ++ snd c]) columns [].

Definition create_sql (table_name : string) (columns : list (string * string))
  : string :=
  "CREATE TABLE IF NOT EXISTS " ++ table_name ++ " ("
    ++ join ", " (column_defs columns) ++ ")".

Definition columns_value (columns : list (string * string)) : pyval :=
  PyDict (map (fun c => (fst c, PyStr (snd c))) columns).

Definition create_table_try (table_name : string)
    (columns : list (string * string)) (db_path : string) : M pyval :=
  let sql := create_sql table_name columns in
  with_connection db_path (fun conn =>
    _ <- cursor_execute conn sql [] ;;
    _ <- conn_commit conn ;;
    ts <- now ;;
    ret (PyDict [("success", PyBool true);
                 ("table_name", PyStr table_name);
                 ("columns", columns_value columns);
                 ("sql", PyStr sql);
                 ("timestamp", PyStr (isoformat P ts))])).

Definition create_table (table_name : string) (columns : list (string * string))
    (db_path : string) : M pyval :=
  try_except (create_table_try table_name columns db_path)
    (except_sqlite_then_exception [("table_name", PyStr table_name)]).

Definition list_tables_sql : string :=
  "SELECT name FROM sqlite_master WHERE type='table'".

(** One entry of the [columns] list of [get_schema], from a row of
    [PRAGMA table_info]. *)
Definition column_info (col : Row) : M pyval :=
  name <- row_index col 1 ;;
  type <- row_index col 2 ;;
  not_null <- row_index col 3 ;;
  default_value <- row_index col 4 ;;
  primary_key <- row_index col 5 ;;
  ret (PyDict [("name", name);
               ("type", type);
               ("not_null", PyBool (truthy not_null));
               ("default_value", default_value);
               ("primary_key", PyBool (truthy primary_key))]).

Definition get_schema_try (db_path : string) : M pyval :=
  with_connection db_path (fun conn =>
    cursor <- cursor_execute conn list_tables_sql [] ;;
    tables <- comprehension (fun row => row_index row 0) (cur_rows cursor) ;;
    ts <- now ;;
    schema_tables <-
      for_each tables [] (fun table acc =>
        cursor <- cursor_execute conn
                    ("PRAGMA table_info(" ++ py_str table ++ ")") [] ;;
        let columns := cur_rows cursor in
        infos <- comprehension column_info columns ;;
        ret (dict_set acc (py_str table)
               (PyDict [("columns", PyList infos);
                        ("column_count", PyInt (len columns))]))) ;;
    ret (PyDict [("success", PyBool true);
                 ("schema",
                   PyDict [("database_path", PyStr db_path);
                           ("tables", PyDict schema_tables);
                           ("table_count", PyInt (len tables));
                           ("timestamp", PyStr (isoformat P ts))])])).

Definition get_schema (db_path : string) : M pyval :=
  try_except (get_schema_try db_path) (except_sqlite_then_exception []).

Definition insert_sql (table_name : string) (data : list (string * pyval)) : string :=
  let columns := dict_keys data in
  let values := dict_values data in
  let placeholders := join ", " (map (fun _ => "?") values) in
  "INSERT INTO " ++ table_name ++ " (" ++ join ", " columns ++ ") VALUES ("
    ++ placeholders ++ ")".

Definition insert_data_try (table_name : string) (data : list (string * pyval))
    (db_path : string) : M pyval :=
  let values := dict_values data in
  let sql := insert_sql table_name data in
  with_connection db_path (fun conn =>
    cursor <- cursor_execute conn sql values ;;
    _ <- conn_commit conn ;;
    ts <- now ;;
    ret (PyDict [("success", PyBool true);
                 ("table_name", PyStr table_name);
                 ("inserted_data", PyDict data);
                 ("row_id", cur_lastrowid cursor);
                 ("timestamp", PyStr (isoformat P ts))])).

Definition insert_data (table_name : string) (data : list (string * pyval))
    (db_path : string) : M pyval :=
  try_except (insert_data_try table_name data db_path)
    (except_sqlite_then_exception
       [("table_name", PyStr table_name); ("data", PyDict data)]).

(** The text of an optional string that is truthy: [if where_clause:] and
    [if not backup_path:] take [None] and the empty string alike. *)
Definition nonempty_text (text : option string) : option string :=
  match text with
  | Some s => if String.eqb s "" then None else Some s
  | None => None
  end.

Definition page_query (table_name : string) (limit offset : Z)
    (where_clause : option string) : string :=
  let base_query := "SELECT * FROM " ++ table_name in
  let query :=
    match nonempty_text where_clause with
    | Some wc => base_query ++ " WHERE " ++ wc
    | None => base_query
    end in
  query ++ " LIMIT " ++ str_of_int limit ++ " OFFSET " ++ str_of_int offset.

Definition count_query (table_name : string) (where_clause : option string)
  : string :=
  let count_query := "SELECT COUNT(*) FROM " ++ table_name in
  match nonempty_text where_clause with
  | Some wc => count_query ++ " WHERE " ++ wc
  | None => count_query
  end.

Definition optional_str (s : option string) : pyval :=
  match s with
  | Some x => PyStr x
  | None => PyNone
  end.

Definition get_table_data_try (table_name : string) (limit offset : Z)
    (where_clause : option string) (db_path : string) : M pyval :=
  let query := page_query table_name limit offset where_clause in
  with_connection db_path (fun conn =>
    cursor <- cursor_execute conn query [] ;;
    let rows := cur_rows cursor in
    cursor2 <- cursor_execute conn (count_query table_name where_clause) [] ;;
    total_rows <- fetchone_0 cursor2 ;;
    let result_rows := map dict_of_row rows in
    ts <- now ;;
    ret (PyDict [("success", PyBool true);
                 ("table_name", PyStr table_name);
                 ("rows", PyList result_rows);
                 ("returned_rows", PyInt (len result_rows));
                 ("total_rows", total_rows);
                 ("limit", PyInt limit);
                 ("offset", PyInt offset);
                 ("where_clause", optional_str where_clause);
                 ("timestamp", PyStr (isoformat P ts))])).

Definition get_table_data (table_name : string) (limit offset : Z)
    (where_clause : option string) (db_path : string) : M pyval :=
  try_except (get_table_data_try table_name limit offset where_clause db_path)
    (except_sqlite_then_exception [("table_name", PyStr table_name)]).

(** [sum(table["row_count"] for table in tables.values())]. *)
Fixpoint sum_row_counts (entries : list pyval) : M Z :=
  match entries with
  | [] => ret 0%Z
  | entry :: rest =>
      match field entry "row_count" with
      | Some (PyInt n) => total <- sum_row_counts rest ;; ret (n + total)%Z
      | Some _ => raise (Exn TypeError "unsupported operand type(s) for +")
      | None => raise (Exn KeyError "'row_count'")
      end
  end.

(** [if not backup_path:] holds for [None] and for the empty string. *)
Definition default_backup_path (backup_path : option string) : M string :=
  match nonempty_text backup_path with
  | Some path => ret path
  | None => ts <- now ;; ret ("backup_" ++ strftime P ts ++ ".json")
  end.

(** The loop of [backup_database] over the tables. *)
Definition backup_tables (conn : nat) (tables : list pyval)
  : M (list (string * pyval)) :=
  for_each tables [] (fun table acc =>
    cursor <- cursor_execute conn ("SELECT * FROM " ++ py_str table) [] ;;
    let rows := cur_rows cursor in
    ret (dict_set acc (py_str table)
           (PyDict [("data", PyList (map dict_of_row rows));
                    ("row_count", PyInt (len rows))]))).

(** The value [backup_database] dumps. *)
Definition backup_value (ts : nat) (db_path : string)
    (tables : list (string * pyval)) : pyval :=
  PyDict [("backup_timestamp", PyStr (isoformat P ts));
          ("source_database", PyStr db_path);
          ("tables", PyDict tables)].

Definition backup_database_try (db_path : string) (backup_path : option string)
  : M pyval :=
  backup_path <- default_backup_path backup_path ;;
  ts <- now ;;
  tables <-
    with_connection db_path (fun conn =>
      cursor <- cursor_execute conn list_tables_sql [] ;;
      tables <- comprehension (fun row => row_index row 0) (cur_rows cursor) ;;
      backup_tables conn tables) ;;
  _ <- write_json backup_path (backup_value ts db_path tables) ;;
  total_rows <- sum_row_counts (dict_values tables) ;;
  ts2 <- now ;;
  ret (PyDict [("success", PyBool true);
               ("backup_path", PyStr backup_path);
               ("source_database", PyStr db_path);
               ("tables_backed_up", PyInt (len tables));
               ("total_rows", PyInt total_rows);
               ("timestamp", PyStr (isoformat P ts2))]).

(** The one handler clause of [backup_database]: [except Exception as e]. *)
Definition except_exception_backup (db_path : string) : exn -> option (M pyval) :=
  fun e =>
    if isinstance_Exception e then
      Some (ret (PyDict [("success", PyBool false);
                         ("error", PyStr ("Backup error: " ++ exn_msg e));
                         ("source_database", PyStr db_path)]))
    else None.

Definition backup_database (db_path : string) (backup_path : option string)
  : M pyval :=
  try_except (backup_database_try db_path backup_path)
    (except_exception_backup db_path).

(** A tool call: one of the seven operations with its arguments. *)
Inductive Request : Type :=
| ExecuteQuery (query db_path : string) (params : option (list pyval))
| ExecuteModification (query db_path : string) (params : option (list pyval))
| CreateTable (table_name : string) (columns : list (string * string))
    (db_path : string)
| GetSchema (db_path : string)
| InsertData (table_name : string) (data : list (string * pyval)) (db_path : string)
| GetTableData (table_name : string) (limit offset : Z)
    (where_clause : option string) (db_path : string)
| BackupDatabase (db_path : string) (backup_path : option string).

Definition call (r : Request) : M pyval :=
  match r with
  | ExecuteQuery q p ps => execute_query q p ps
  | ExecuteModification q p ps => execute_modification q p ps
  | CreateTable t cols p => create_table t cols p
  | GetSchema p => get_schema p
  | InsertData t data p => insert_data t data p
  | GetTableData t l o wc p => get_table_data t l o wc p
  | BackupDatabase p b => backup_database p b
  end.

(** The [try] suite of a tool call. *)
Definition try_suite (r : Request) : M pyval :=
  match r with
  | ExecuteQuery q p ps => execute_query_try q p ps
  | ExecuteModification q p ps => execute_modification_try q p ps
  | CreateTable t cols p => create_table_try t cols p
  | GetSchema p => get_schema_try p
  | InsertData t data p => insert_data_try t data p
  | GetTableData t l o wc p => get_table_data_try t l o wc p
  | BackupDatabase p b => backup_database_try p b
  end.

End Service.

Arguments Unopenable {P} msg.
Arguments Content {P} d.
Arguments disk {P} w path : rename.
Arguments conns {P} w : rename.
Arguments clock {P} w : rename.
Arguments write_fault {P} w path : rename.
Arguments artifacts {P} w path : rename.
Arguments events {P} w : rename.
Arguments conn_path {P} c : rename.
Arguments conn_work {P} c : rename.
Arguments conn_closed {P} c : rename.
Arguments log {P} ev w.
Arguments set_conns {P} cs w.
Arguments set_disk {P} path f w.
Arguments set_artifact {P} path a w.
Arguments tick {P} w.
Arguments ret {P A} a w : rename.
Arguments raise {P A} e w : rename.
Arguments bind {P A B} m k w : rename.
Arguments try_except {P A} body clauses w : rename.

(* ================================================================= *)
(** ** Text helpers of the small engine *)

(** [strip_prefix p s] is the rest of [s] after its prefix [p]. *)
Fixpoint strip_prefix (p s : string) : option string :=
  match p, s with
  | EmptyString, _ => Some s
  | String a p', String b s' => if Ascii.eqb a b then strip_prefix p' s' else None
  | String _ _, EmptyString => None
  end.

(** The pieces of [s] between the occurrences of [c] (empty pieces kept). *)
Fixpoint split_char (c : ascii) (s : string) : list string :=
  match s with
  | EmptyString => [""]
  | String a s' =>
      if Ascii.eqb a c then "" :: split_char c s'
      else
        match split_char c s' with
        | w :: ws => String a w :: ws
        | [] => [String a ""]
        end
  end.

(** The text before the first [c] and the text after it. *)
Fixpoint break_at (c : ascii) (s : string) : option (string * string) :=
  match s with
  | EmptyString => None
  | String a s' =>
      if Ascii.eqb a c then Some ("", s')
      else
        match break_at c s' with
        | Some (x, y) => Some (String a x, y)
        | None => None
        end
  end.

(** [s] without its last character, which must be [c]. *)
Fixpoint drop_last (c : ascii) (s : string) : option string :=
  match s with
  | EmptyString => None
  | String a EmptyString => if Ascii.eqb a c then Some "" else None
  | String a s' => option_map (String a) (drop_last c s')
  end.

(** [s] without leading spaces. *)
Fixpoint ltrim (s : string) : string :=
  match s with
  | String a s' => if Ascii.eqb a " " then ltrim s' else s
  | EmptyString => s
  end.

Definition parse_int (s : string) : option Z :=
  option_map Z.of_int (NilZero.int_of_string s).

Definition is_ident_char (a : ascii) : bool :=
  let n := nat_of_ascii a in
  (Nat.leb 65 n && Nat.leb n 90) || (Nat.leb 97 n && Nat.leb n 122)
  || (Nat.leb 48 n && Nat.leb n 57) || Nat.eqb n 95.

Fixpoint all_chars (f : ascii -> bool) (s : string) : bool :=
  match s with
  | EmptyString => true
  | String a s' => f a && all_chars f s'
  end.

(** [p] occurs in [s]. *)
Fixpoint contains (p s : string) : bool :=
  match strip_prefix p s with
  | Some _ => true
  | None =>
      match s with
      | EmptyString => false
      | String _ s' => contains p s'
      end
  end.

(** No character of [s] is [c]. *)
Definition lacks (c : ascii) (s : string) : bool :=
  all_chars (fun a => negb (Ascii.eqb a c)) s.

(* ================================================================= *)
(** ** MiniSqlite: a small instance of the platform *)

(** A model of the engine on the statements the service builds, written
    from SQLite's documentation: [CREATE TABLE IF NOT EXISTS], single-row
    [INSERT] with [?] placeholders, [DELETE], [SELECT *] and
    [SELECT COUNT( * )] with an optional [WHERE column = integer] and an
    optional [LIMIT]/[OFFSET], the listing of [sqlite_master] and
    [PRAGMA table_info].  Keywords are matched in upper case and any other
    statement is refused as a syntax error.  Two points of SQLite's
    documentation matter below: a negative [LIMIT] puts no bound on the
    number of rows (a negative [OFFSET] counts as zero), and a statement is
    parsed before it is run, so that [CREATE TABLE IF NOT EXISTS] with a
    malformed column list is a syntax error also when the table exists. *)
Module MiniSqlite.

Record Table : Type := {
  t_name : string;
  t_columns : list (string * string);
  t_rows : list (Z * list pyval)
}.

Definition Db : Type := list Table.

Definition sqlite_error (msg : string) : exn := Exn Sqlite3Error msg.

Definition syntax_error {A : Type} : exn + A :=
  inl (sqlite_error "syntax error").

Fixpoint find_table (d : Db) (name : string) : option Table :=
  match d with
  | [] => None
  | t :: rest => if String.eqb (t_name t) name then Some t else find_table rest name
  end.

Definition row_of (t : Table) (r : Z * list pyval) : Row :=
  combine (map fst (t_columns t)) (snd r).

Definition rows_of (t : Table) : list Row := map (row_of t) (t_rows t).

Definition keywords : list string :=
  ["SELECT"; "FROM"; "WHERE"; "LIMIT"; "OFFSET"; "CREATE"; "TABLE"; "IF";
   "NOT"; "EXISTS"; "INSERT"; "INTO"; "VALUES"; "DELETE"; "PRAGMA"].

(** A name that needs no quotes: letters, digits and underscores, not
    starting with a digit, and not a keyword. *)
Definition bare (name : string) : bool :=
  match name with
  | EmptyString => false
  | String a _ =>
      all_chars is_ident_char name
      && negb (Nat.leb 48 (nat_of_ascii a) && Nat.leb (nat_of_ascii a) 57)
      && negb (existsb (String.eqb name) keywords)
  end.

(** The table and the row filter a [FROM table [WHERE column = n]] names. *)
Definition source (d : Db) (ws : list string)
  : exn + (Table * (Z * list pyval -> bool)) :=
  match ws with
  | [name] =>
      match find_table d name with
      | Some t => inr (t, fun _ => true)
      | None => inl (sqlite_error ("no such table: " ++ name))
      end
  | [name; kw; col; op; lit] =>
      if String.eqb kw "WHERE" && String.eqb op "=" then
        match find_table d name, parse_int lit with
        | Some t, Some n =>
            if existsb (String.eqb col) (map fst (t_columns t)) then
              inr (t, fun r =>
                        match dict_get (row_of t r) col with
                        | Some (PyInt m) => Z.eqb m n
                        | _ => false
                        end)
            else inl (sqlite_error ("no such column: " ++ col))
        | None, _ => inl (sqlite_error ("no such table: " ++ name))
        | _, None => syntax_error
        end
      else syntax_error
  | _ => syntax_error
  end.

(** [LIMIT l OFFSET o] on a row sequence. *)
Definition window (l o : Z) (rows : list Row) : list Row :=
  let rest := skipn (Z.to_nat o) rows in
  if (l <? 0)%Z then rest else firstn (Z.to_nat l) rest.

(** The trailing [LIMIT l [OFFSET o]] of a reversed token list. *)
Definition limit_clause (rws : list string)
  : exn + (list string * option (Z * Z)) :=
  match rws with
  | o :: kw_o :: l :: kw_l :: rsrc =>
      if String.eqb kw_o "OFFSET" && String.eqb kw_l "LIMIT" then
        match parse_int l, parse_int o with
        | Some lv, Some ov => inr (rsrc, Some (lv, ov))
        | _, _ => syntax_error
        end
      else if String.eqb kw_o "LIMIT" then
        match parse_int o with
        | Some lv => inr (kw_l :: l :: rsrc, Some (lv, 0%Z))
        | None => syntax_error
        end
      else inr (rws, None)
  | l :: kw_l :: rsrc =>
      if String.eqb kw_l "LIMIT" then
        match parse_int l with
        | Some lv => inr (rsrc, Some (lv, 0%Z))
        | None => syntax_error
        end
      else inr (rws, None)
  | _ => inr (rws, None)
  end.

Definition select_star (d : Db) (rest : string) : exn + list Row :=
  match limit_clause (List.rev (split_char " " rest)) with
  | inl e => inl e
  | inr (rsrc, lim) =>
      match source d (List.rev rsrc) with
      | inl e => inl e
      | inr (t, keep) =>
          let rows := map (row_of t) (filter keep (t_rows t)) in
          match lim with
          | Some (l, o) => inr (window l o rows)
          | None => inr rows
          end
      end
  end.

Definition select_count (d : Db) (rest : string) : exn + list Row :=
  match source d (split_char " " rest) with
  | inl e => inl e
  | inr (t, keep) => inr [[("COUNT(*)", PyInt (len (filter keep (t_rows t))))]]
  end.

Definition select (d : Db) (rest : string) : exn + list Row :=
  if String.eqb rest "name FROM sqlite_master WHERE type='table'" then
    inr (map (fun t => [("name", PyStr (t_name t))]) d)
  else
    match strip_prefix "COUNT(*) FROM " rest with
    | Some r => select_count d r
    | None =>
        match strip_prefix "* FROM " rest with
        | Some r => select_star d r
        | None => syntax_error
        end
    end.

Definition query_cursor (rows : list Row) : Cursor :=
  {| cur_rows := rows; cur_rowcount := (-1)%Z; cur_lastrowid := PyNone |}.

Definition replace_table (d : Db) (t : Table) : Db :=
  map (fun u => if String.eqb (t_name u) (t_name t) then t else u) d.

Definition delete (d : Db) (rest : string) : exn + (Db * Cursor) :=
  match source d (split_char " " rest) with
  | inl e => inl e
  | inr (t, gone) =>
      let kept := filter (fun r => negb (gone r)) (t_rows t) in
      inr (replace_table d
             {| t_name := t_name t; t_columns := t_columns t; t_rows := kept |},
           {| cur_rows := [];
              cur_rowcount := (len (t_rows t) - len kept)%Z;
              cur_lastrowid := PyNone |})
  end.

(** One column definition, [name type]. *)
Definition column_def (text : string) : option (string * string) :=
  match break_at " " text with
  | Some (name, type) => if String.eqb name "" then None else Some (name, type)
  | None => if String.eqb text "" then None else Some (text, "")
  end.

Fixpoint column_list (defs : list string) : option (list (string * string)) :=
  match defs with
  | [] => Some []
  | text :: rest =>
      match column_def (ltrim text), column_list rest with
      | Some c, Some cs => Some (c :: cs)
      | _, _ => None
      end
  end.

(** The table name and the columns of [name (c1 t1, ..., cn tn)]. *)
Definition create_parts (rest : string)
  : option (string * list (string * string)) :=
  match break_at " " rest with
  | Some (name, after) =>
      match strip_prefix "(" after with
      | Some inside =>
          match drop_last ")" inside with
          | Some body =>
              match column_list (split_char "," body) with
              | Some cols =>
                  if String.eqb name "" then None else Some (name, cols)
              | None => None
              end
          | None => None
          end
      | None => None
      end
  | None => None
  end.

Definition ddl_cursor : Cursor :=
  {| cur_rows := []; cur_rowcount := (-1)%Z; cur_lastrowid := PyNone |}.

Definition create (d : Db) (rest : string) : exn + (Db * Cursor) :=
  match create_parts rest with
  | None => syntax_error
  | Some (name, cols) =>
      match find_table d name with
      | Some _ => inr (d, ddl_cursor)
      | None =>
          inr (List.app d [{| t_name := name; t_columns := cols; t_rows := [] |}],
               ddl_cursor)
      end
  end.

(** The values SQLite stores: [None], integers (booleans are integers),
    floats, text and bytes. *)
Definition storable (v : pyval) : bool :=
  match v with
  | PyList _ | PyDict _ => false
  | _ => true
  end.

Definition next_rowid (t : Table) : Z :=
  (fold_right Z.max 0 (map fst (t_rows t)) + 1)%Z.

(** [name (c1, ..., cn) VALUES (?, ..., ?)] with one parameter per
    placeholder. *)
Definition insert (d : Db) (rest : string) (params : list pyval)
  : exn + (Db * Cursor) :=
  match break_at " " rest with
  | Some (name, after) =>
      match strip_prefix "(" after with
      | Some inside =>
          match break_at ")" inside with
          | Some (cols_text, values_text) =>
              match strip_prefix " VALUES (" values_text with
              | Some marks_text =>
                  match drop_last ")" marks_text with
                  | Some marks =>
                      let cols := map ltrim (split_char "," cols_text) in
                      let qs := map ltrim (split_char "," marks) in
                      if negb (forallb (String.eqb "?") qs) then syntax_error
                      else
                        match find_table d name with
                        | None => inl (sqlite_error ("no such table: " ++ name))
                        | Some t =>
                            if negb (forallb
                                       (fun c => existsb (String.eqb c)
                                                   (map fst (t_columns t)))
                                       cols)
                            then inl (sqlite_error "table has no such column")
                            else if negb (Nat.eqb (length cols) (length qs))
                            then inl (sqlite_error "values for columns mismatch")
                            else if negb (Nat.eqb (length qs) (length params))
                            then inl (sqlite_error
                                        "Incorrect number of bindings supplied")
                            else if negb (forallb storable params)
                            then inl (sqlite_error "Error binding parameter")
                            else
                              let given := combine cols params in
                              let values :=
                                map (fun c =>
                                       match dict_get given (fst c) with
                                       | Some v => v
                                       | None => PyNone
                                       end)
                                    (t_columns t) in
                              let id := next_rowid t in
                              inr (replace_table d
                                     {| t_name := t_name t;
                                        t_columns := t_columns t;
                                        t_rows :=
                                          List.app (t_rows t) [(id, values)] |},
                                   {| cur_rows := []; cur_rowcount := 1%Z;
                                      cur_lastrowid := PyInt id |})
                        end
                  | None => syntax_error
                  end
              | None => syntax_error
              end
          | None => syntax_error
          end
      | None => syntax_error
      end
  | None => syntax_error
  end.

(** The rows of [PRAGMA table_info(name)]; an unknown table has none. *)
Definition table_info (d : Db) (name : string) : list Row :=
  match find_table d name with
  | None => []
  | Some t =>
      map (fun ic =>
             [("cid", PyInt (Z.of_nat (fst ic)));
              ("name", PyStr (fst (snd ic)));
              ("type", PyStr (snd (snd ic)));
              ("notnull", PyInt 0);
              ("dflt_value", PyNone);
              ("pk", PyInt 0)])
          (combine (seq 0 (length (t_columns t))) (t_columns t))
  end.

(** One statement on a content.  Only [INSERT] takes parameters. *)
Definition execute (d : Db) (stmt : string) (params : list pyval)
  : exn + (Db * Cursor) :=
  match strip_prefix "INSERT INTO " stmt with
  | Some rest => insert d rest params
  | None =>
      match params with
      | _ :: _ => inl (sqlite_error "Incorrect number of bindings supplied")
      | [] =>
          match strip_prefix "SELECT " stmt with
          | Some rest =>
              match select d rest with
              | inl e => inl e
              | inr rows => inr (d, query_cursor rows)
              end
          | None =>
              match strip_prefix "PRAGMA table_info(" stmt with
              | Some rest =>
                  match drop_last ")" rest with
                  | Some name => inr (d, query_cursor (table_info d name))
                  | None => syntax_error
                  end
              | None =>
                  match strip_prefix "DELETE FROM " stmt with
                  | Some rest => delete d rest
                  | None =>
                      match strip_prefix "CREATE TABLE IF NOT EXISTS " stmt with
                      | Some rest => create d rest
                      | None => syntax_error
                      end
                  end
              end
          end
      end
  end.

Definition platform : Platform :=
  {| database := Db;
     engine_execute := execute;
     table_names := fun d => map t_name d;
     table_rows := fun d name =>
                     match find_table d name with
                     | Some t => rows_of t
                     | None => []
                     end;
     bare_name := bare;
     keeps_tail := fun s => negb (contains "--" s) && negb (contains "/*" s);
     isoformat := fun n => "T" ++ str_of_int (Z.of_nat n);
     strftime := fun n => str_of_int (Z.of_nat n);
     str_opaque := fun _ => "<object>" |}.

(** A world with one database file at [path], no handle and no file
    written, in which every other path cannot be opened. *)
Definition world_of (path : string) (d : Db) : World platform :=
  {| disk := fun p =>
               if String.eqb p path then @Content platform d
               else Unopenable "unable to open database file";
     conns := [];
     clock := 0;
     write_fault := fun p =>
                      if String.eqb p "/" then Some "[Errno 21] Is a directory: '/'"
                      else None;
     artifacts := fun _ => None;
     events := [] |}.

(** A content with one table [t(id INTEGER, name TEXT)] and one row. *)
Definition sample_db : Db :=
  [{| t_name := "t";
      t_columns := [("id", "INTEGER"); ("name", "TEXT")];
      t_rows := [(1%Z, [PyInt 1; PyStr "a"])] |}].

End MiniSqlite.

(* ================================================================= *)
(** ** Vocabulary of the specification *)

(** The parameters [execute] is given: [cursor.execute(query)] binds
    none. *)
Definition given_params (params : option (list pyval)) : list pyval :=
  match params with
  | Some ps => ps
  | None => []
  end.

(** The inputs a failure result echoes back, per operation. *)
Definition echoed_context (r : Request) : list (string * pyval) :=
  match r with
  | ExecuteQuery q _ _ => [("query", PyStr q)]
  | ExecuteModification q _ _ => [("query", PyStr q)]
  | CreateTable t _ _ => [("table_name", PyStr t)]
  | GetSchema _ => []
  | InsertData t data _ => [("table_name", PyStr t); ("data", PyDict data)]
  | GetTableData t _ _ _ _ => [("table_name", PyStr t)]
  | BackupDatabase p _ => [("source_database", PyStr p)]
  end.

(** The three prefixes an error message can carry. *)
Inductive Category : Type :=
| EngineError
| UnexpectedError
| BackupError.

Definition category_label (c : Category) : string :=
  match c with
  | EngineError => "SQLite error: "
  | UnexpectedError => "Unexpected error: "
  | BackupError => "Backup error: "
  end.

(** The category the specification gives a fault: engine or unexpected. *)
Definition fault_category (e : exn) : Category :=
  if isinstance_sqlite3_Error e then EngineError else UnexpectedError.

(** The category an operation reports a fault under. *)
Definition reported_category (r : Request) (e : exn) : Category :=
  match r with
  | BackupDatabase _ _ => BackupError
  | _ => fault_category e
  end.

(** The failure result of an operation for a fault. *)
Definition failure_result (r : Request) (e : exn) : pyval :=
  PyDict (("success", PyBool false)
            :: ("error", PyStr (category_label (reported_category r e) ++ exn_msg e))
            :: echoed_context r).

(** The category a result shows, read off its error message. *)
Definition category_of (res : pyval) : option Category :=
  match field res "error" with
  | Some (PyStr msg) =>
      if String.prefix "SQLite error: " msg then Some EngineError
      else if String.prefix "Unexpected error: " msg then Some UnexpectedError
      else if String.prefix "Backup error: " msg then Some BackupError
      else None
  | _ => None
  end.

(** The keys of a result besides [success] and [error]. *)
Definition context_fields (res : pyval) : list string :=
  match res with
  | PyDict items =>
      filter (fun k => negb (String.eqb k "success" || String.eqb k "error"))
        (dict_keys items)
  | _ => []
  end.

(** The statement of [create_table] in the words of the specification:
    [CREATE TABLE IF NOT EXISTS <tableName> (<name1> <type1>, ...,
    <nameN> <typeN>)]. *)
Fixpoint column_list_text (columns : list (string * string)) : string :=
  match columns with
  | [] => ""
  | [(name, type)] => name ++ " " ++ type
  | (name, type) :: rest => name ++ " " ++ type ++ ", " ++ column_list_text rest
  end.

Definition create_statement_text (table_name : string)
    (columns : list (string * string)) : string :=
  "CREATE TABLE IF NOT EXISTS " ++ table_name ++ " ("
    ++ column_list_text columns ++ ")".

(** What follows [FROM] in the page query. *)
Definition page_source (table_name : string) (where_clause : option string)
  : string :=
  match nonempty_text where_clause with
  | Some wc => table_name ++ " WHERE " ++ wc
  | None => table_name
  end.

(** The sum of a list of integers. *)
Definition sum (l : list Z) : Z := fold_right Z.add 0%Z l.

Section Laws.

Variable P : Platform.

(** The content a statement leaves when it is run on [d] and committed:
    the engine's new content, or [d] itself when the statement fails. *)
Definition content_after (d : database P) (stmt : string) (params : list pyval)
  : database P :=
  match engine_execute P d stmt params with
  | inr (d', _) => d'
  | inl _ => d
  end.

(** The first value of the first row of the engine's answer to the count
    query: the total that [get_table_data] reports. *)
Definition count_total (d : database P) (table_name : string)
    (where_clause : option string) : option pyval :=
  match engine_execute P d (count_query table_name where_clause) [] with
  | inr (_, cur) =>
      match cur_rows cur with
      | ((_, total) :: _) :: _ => Some total
      | _ => None
      end
  | inl _ => None
  end.

(** [cursor.fetchone()[0]] as a value or the exception it raises. *)
Definition first_value (cur : Cursor) : exn + pyval :=
  match cur_rows cur with
  | [] => inl (Exn TypeError "'NoneType' object is not subscriptable")
  | [] :: _ => inl (Exn IndexError "No item with that key")
  | ((_, v) :: _) :: _ => inr v
  end.

(** The entry of a table in the snapshot: its rows, each as a dict, and
    their number. *)
Definition table_entry (d : database P) (name : string) : pyval :=
  PyDict [("data", PyList (map dict_of_row (table_rows P d name)));
          ("row_count", PyInt (len (table_rows P d name)))].

(** The tables of the snapshot of a content. *)
Definition snapshot_tables (d : database P) : list (string * pyval) :=
  map (fun name => (name, table_entry d name)) (table_names P d).

(** A statement that begins with [SELECT] changes nothing. *)
Definition select_readonly : Prop :=
  forall d rest params d' cur,
    engine_execute P d ("SELECT" ++ rest) params = inr (d', cur) -> d' = d.

(** A page query with a limit that is not negative returns at most that
    many rows, when the text before its [LIMIT] opens no comment. *)
Definition limit_bound : Prop :=
  forall d table_name limit offset where_clause d' cur,
    (0 <= limit)%Z ->
    keeps_tail P (page_source table_name where_clause) = true ->
    engine_execute P d (page_query table_name limit offset where_clause) []
      = inr (d', cur) ->
    (len (cur_rows cur) <= limit)%Z.

(** The listing of [sqlite_master] returns the names of the tables. *)
Definition master_lists_tables : Prop :=
  forall d d' cur,
    engine_execute P d list_tables_sql [] = inr (d', cur) ->
    cur_rows cur = map (fun name => [("name", PyStr name)]) (table_names P d).

(** [SELECT * FROM name] on a table with a bare name returns the rows of
    that table. *)
Definition scan_reads_table : Prop :=
  forall d name d' cur,
    bare_name P name = true ->
    In name (table_names P d) ->
    engine_execute P d ("SELECT * FROM " ++ name) [] = inr (d', cur) ->
    cur_rows cur = table_rows P d name.

(** [CREATE TABLE IF NOT EXISTS], when the engine accepts it for a table
    that exists, changes nothing. *)
Definition create_existing_noop : Prop :=
  forall d name body d' cur,
    bare_name P name = true ->
    In name (table_names P d) ->
    engine_execute P d
      ("CREATE TABLE IF NOT EXISTS " ++ name ++ " (" ++ body ++ ")") []
      = inr (d', cur) ->
    d' = d.

(** The world in which a handle [c] has been added to the handles of
    [b]. *)
Definition attach (b : World P) (c : Conn P) : World P :=
  set_conns (List.app (conns b) [c]) b.

(** The handle [get_db_connection] returns for [db_path] holding [d]. *)
Definition fresh_conn (db_path : string) (d : database P) : Conn P :=
  {| conn_path := db_path; conn_work := d; conn_closed := false |}.

Definition with_work (c : Conn P) (d : database P) : Conn P :=
  {| conn_path := conn_path c; conn_work := d; conn_closed := conn_closed c |}.

(** No [close] among the events. *)
Definition no_close (tr : list Event) : Prop := ~ In EvClose tr.

(** What every operation guarantees about handles, from the world [w]
    before a call to the world [w'] after it: either no handle was opened,
    or one handle was, which at return is not closed and has no pending
    change (its working content is the content of its file); the handles
    that existed are as they were, and [close] was not called. *)
Definition handle_left_open (w w' : World P) : Prop :=
  (exists tr, events w' = List.app (events w) tr /\ no_close tr) /\
  (conns w' = conns w \/
   exists c,
     conns w' = List.app (conns w) [c] /\
     conn_closed c = false /\
     disk w' (conn_path c) = Content (conn_work c)).

(** The claim that the handle opened by a call is closed at return. *)
Definition handles_released (w w' : World P) : Prop :=
  forall i c,
    length (conns w) <= i ->
    nth_error (conns w') i = Some c ->
    conn_closed c = true.

(** From [b] with the handle [c] to [b'] with the handle [c']: the other
    handles, the file of the handle and its flag stay, no [close] is
    logged, and a path that held a content still holds one. *)
Definition step (b : World P) (c : Conn P) (b' : World P) (c' : Conn P) : Prop :=
  conns b' = conns b /\
  conn_path c' = conn_path c /\
  conn_closed c' = conn_closed c /\
  (exists tr, events b' = (events b ++ tr)%list /\ no_close tr) /\
  (forall p, (exists d, disk b p = Content d) -> exists d', disk b' p = Content d').

(** A computation that works on the handle [n] only. *)
Definition local (n : nat) {A : Type} (m : M P A) : Prop :=
  forall b c,
    length (conns b) = n ->
    exists b' c' r, m (attach b c) = (r, attach b' c') /\ step b c b' c'.

(** A step that touches neither the handles nor the database files and
    calls no [close]. *)
Definition qstep (w w' : World P) : Prop :=
  conns w' = conns w /\
  (forall p, disk w' p = disk w p) /\
  (exists tr, events w' = (events w ++ tr)%list /\ no_close tr).

Definition quiet {A : Type} (m : M P A) : Prop := forall w, qstep w (snd (m w)).

(** The world a call leaves when its statement failed: connected, the
    statement tried, rolled back. *)
Definition rolled_back (w : World P) (db_path : string) (d : database P)
    (stmt : string) (params : list pyval) : World P :=
  attach
    (log EvRollback (log (EvExecute stmt params) (log (EvConnect db_path) w)))
    (fresh_conn db_path d).

End Laws.

Arguments attach {P} b c.
Arguments fresh_conn {P} db_path d.
Arguments with_work {P} c d.
Arguments handle_left_open {P} w w'.
Arguments handles_released {P} w w'.
Arguments step {P} b c b' c'.
Arguments local {P} n {A} m.
Arguments qstep {P} w w'.
Arguments quiet {P A} m.
Arguments rolled_back {P} w db_path d stmt params.

(** The claim that a fault comes back with success false, a message and
    some echoed context. *)
Definition reported_with_context (P : Platform) (r : Request) (w : World P)
  : Prop :=
  forall e,
    fst (try_suite P r w) = inl e ->
    exists res msg,
      fst (call P r w) = inr res /\
      field res "success" = Some (PyBool false) /\
      field res "error" = Some (PyStr msg) /\
      context_fields res <> [].

(** The claim that a fault is reported under its own category. *)
Definition reported_by_kind (P : Platform) (r : Request) (w : World P) : Prop :=
  forall e,
    fst (try_suite P r w) = inl e ->
    exists res,
      fst (call P r w) = inr res /\
      category_of res = Some (fault_category e).

(** The claim that [execute_query] leaves the content of the database file
    as it was. *)
Definition query_leaves_database (P : Platform) (w : World P)
    (query db_path : string) (params : option (list pyval)) : Prop :=
  forall d,
    disk w db_path = Content d ->
    disk (snd (execute_query P query db_path params w)) db_path = Content d.

(** The claim that [create_table] on a table that exists succeeds whatever
    the columns. *)
Definition create_existing_succeeds (P : Platform) (w : World P)
    (table_name : string) (columns : list (string * string)) (db_path : string)
  : Prop :=
  forall d,
    disk w db_path = Content d ->
    In table_name (table_names P d) ->
    exists res,
      fst (create_table P table_name columns db_path w) = inr res /\
      field res "success" = Some (PyBool true).

(** The claim that a successful [get_table_data] returns at most [limit]
    rows. *)
Definition page_within_limit (P : Platform) (w : World P) (table_name : string)
    (limit offset : Z) (where_clause : option string) (db_path : string) : Prop :=
  forall res,
    fst (get_table_data P table_name limit offset where_clause db_path w)
      = inr res ->
    field res "success" = Some (PyBool true) ->
    exists n,
      field res "returned_rows" = Some (PyInt n) /\ (n <= limit)%Z.

(** The claim that the total a successful [backup_database] returns is the
    sum of the live row counts of the tables. *)
Definition backup_counts_live_rows (P : Platform) (w : World P)
    (db_path : string) (backup_path : option string) : Prop :=
  forall d res,
    disk w db_path = Content d ->
    fst (backup_database P db_path backup_path w) = inr res ->
    field res "success" = Some (PyBool true) ->
    field res "total_rows"
      = Some (PyInt (sum (map (fun name => len (table_rows P d name))
                            (table_names P d)))).

(** A second content: the table [t] with one row and a table whose name
    needs quotes, [t LIMIT 0], with two rows. *)
Definition quoted_name_db : MiniSqlite.Db :=
  [{| MiniSqlite.t_name := "t";
      MiniSqlite.t_columns := [("id", "INTEGER")];
      MiniSqlite.t_rows := [(1%Z, [PyInt 1])] |};
   {| MiniSqlite.t_name := "t LIMIT 0";
      MiniSqlite.t_columns := [("id", "INTEGER")];
      MiniSqlite.t_rows := [(1%Z, [PyInt 7]); (2%Z, [PyInt 8])] |}].

(* ================================================================= *)
(** ** Vocabulary of the further properties *)

(** The database file a tool call names. *)
Definition db_path_of (r : Request) : string :=
  match r with
  | ExecuteQuery _ p _ => p
  | ExecuteModification _ p _ => p
  | CreateTable _ _ p => p
  | GetSchema p => p
  | InsertData _ _ p => p
  | GetTableData _ _ _ _ p => p
  | BackupDatabase p _ => p
  end.

(** An entry of two fields, a list and a count, whose count is the length
    of the list and whose list holds items of the kind [item_ok]: the
    entries of a snapshot ([data], [row_count]) and of a schema
    ([columns], [column_count]). *)
Definition counted_entry (item_ok : pyval -> Prop) (list_key count_key : string)
    (entry : pyval) : Prop :=
  exists items,
    entry = PyDict [(list_key, PyList items); (count_key, PyInt (len items))] /\
    Forall item_ok items.

(** A row of a result set, as the dict made of it. *)
Definition row_dict (v : pyval) : Prop := exists r : Row, v = dict_of_row r.

(** An entry of the [columns] list of [get_schema]. *)
Definition column_entry (v : pyval) : Prop :=
  exists name type default_value not_null primary_key,
    v = PyDict [("name", name);
                ("type", type);
                ("not_null", PyBool not_null);
                ("default_value", default_value);
                ("primary_key", PyBool primary_key)].

(** The count an entry stores, zero when it stores none. *)
Definition stored_count (count_key : string) (entry : pyval) : Z :=
  match field entry count_key with
  | Some (PyInt n) => n
  | _ => 0%Z
  end.

(** A content whose one table holds a [bytes] value. *)
Definition blob_db : MiniSqlite.Db :=
  [{| MiniSqlite.t_name := "b";
      MiniSqlite.t_columns := [("payload", "BLOB")];
      MiniSqlite.t_rows := [(1%Z, [PyBytes [Byte.x00]])] |}].

(** A world with two database files, [db] holding the sample content and
    [other.db] holding the second content; no other path opens as a
    database, and [/] cannot be written. *)
Definition two_databases : World MiniSqlite.platform :=
  {| disk := fun p =>
               if String.eqb p "db" then @Content MiniSqlite.platform
                                           MiniSqlite.sample_db
               else if String.eqb p "other.db"
                    then @Content MiniSqlite.platform quoted_name_db
                    else Unopenable "unable to open database file";
     conns := [];
     clock := 0;
     write_fault := fun p =>
                      if String.eqb p "/" then Some "[Errno 21] Is a directory: '/'"
                      else None;
     artifacts := fun _ => None;
     events := [] |}.

Section Frames.

Variable P : Platform.

(** The file [backup_database] writes, called in the world [w]: the path
    given when it is not empty, and otherwise a name made from the
    clock. *)
Definition chosen_backup_path (backup_path : option string) (w : World P)
  : string :=
  match nonempty_text backup_path with
  | Some path => path
  | None => "backup_" ++ strftime P (clock w) ++ ".json"
  end.

(** The one file a tool call may write: the backup file of
    [backup_database]. *)
Definition may_write (r : Request) (w : World P) (path : string) : Prop :=
  match r with
  | BackupDatabase _ backup_path => path = chosen_backup_path backup_path w
  | _ => False
  end.

(** A computation every result of which satisfies [Q]. *)
Definition yields {A : Type} (Q : A -> Prop) (m : M P A) : Prop :=
  forall w v, fst (m w) = inr v -> Q v.

(** A statement the engine runs without changing the content. *)
Definition reads_only (stmt : string) : Prop :=
  forall d params d' cur,
    engine_execute P d stmt params = inr (d', cur) -> d' = d.

(** [PRAGMA table_info] changes nothing. *)
Definition table_info_readonly : Prop :=
  forall rest, reads_only ("PRAGMA table_info(" ++ rest).

(** A computation on the handle [n] every run of which is a step of the
    relation [R], from the world and the handle before to the world and
    the handle after, and leaves the other handles alone. *)
Definition keeps (R : World P -> Conn P -> World P -> Conn P -> Prop) (n : nat)
    {A : Type} (m : M P A) : Prop :=
  forall b c,
    length (conns b) = n ->
    exists b' c' r,
      m (attach b c) = (r, attach b' c') /\ conns b' = conns b /\ R b c b' c'.

(** What no step of a [with] block does: it keeps the file and the flag of
    the handle, the database files other than the handle's, the files
    written and the paths that cannot be written. *)
Definition frame_rel (b : World P) (c : Conn P) (b' : World P) (c' : Conn P)
  : Prop :=
  conn_path c' = conn_path c /\
  conn_closed c' = conn_closed c /\
  (forall p, p <> conn_path c -> disk b' p = disk b p) /\
  (forall p, artifacts b' p = artifacts b p) /\
  (forall p, write_fault b' p = write_fault b p).

(** What a reading step keeps besides: the working content of the handle
    and every database file. *)
Definition read_rel (b : World P) (c : Conn P) (b' : World P) (c' : Conn P)
  : Prop :=
  conn_path c' = conn_path c /\
  conn_work c' = conn_work c /\
  (forall p, disk b' p = disk b p).

(** What a call does to the handles, the other database files and the
    files written. *)
Definition call_frame (r : Request) (w w' : World P) : Prop :=
  (forall p, p <> db_path_of r -> disk w' p = disk w p) /\
  (forall p, ~ may_write r w p -> artifacts w' p = artifacts w p) /\
  match disk w (db_path_of r) with
  | Content _ =>
      exists c,
        conns w' = List.app (conns w) [c] /\
        conn_path c = db_path_of r /\
        conn_closed c = false
  | Unopenable _ => conns w' = conns w
  end.

End Frames.

Arguments may_write {P} r w path.
Arguments yields {P A} Q m.
Arguments keeps {P} R n {A} m.
Arguments frame_rel {P} b c b' c'.
Arguments read_rel {P} b c b' c'.
Arguments call_frame {P} r w w'.

(* ================================================================= *)
(** ** Every fault becomes a failure result *)

Section Outcomes.

Variable P : Platform.

(** The handlers of an operation are total on exceptions: the operation
    returns the value of its [try] suite, or the failure result of the
    fault the suite raised. *)
Lemma call_outcome (r : Request) (w : World P) :
  call P r w =
  match try_suite P r w with
  | (inr v, w1) => (inr v, w1)
  | (inl e, w1) => (inr (failure_result r e), w1)
  end.
Proof.
  destruct r; cbn [call try_suite];
    unfold execute_query, execute_modification, create_table, get_schema,
      insert_data, get_table_data, backup_database;
    unfold try_except;
    match goal with
    | |- context [match ?m w with _ => _ end] => destruct (m w) as [[e | v] w1]
    end;
    try reflexivity;
    unfold except_sqlite_then_exception, except_exception_backup, failure_result,
      reported_category, fault_category, isinstance_Exception;
    destruct (isinstance_sqlite3_Error e); reflexivity.
Qed.

Lemma call_world (r : Request) (w : World P) :
  snd (call P r w) = snd (try_suite P r w).
Proof.
  rewrite call_outcome.
  destruct (try_suite P r w) as [[e | v] w1]; reflexivity.
Qed.

Lemma call_result (r : Request) (w : World P) :
  fst (call P r w) =
  match fst (try_suite P r w) with
  | inr v => inr v
  | inl e => inr (failure_result r e)
  end.
Proof.
  rewrite call_outcome.
  destruct (try_suite P r w) as [[e | v] w1]; reflexivity.
Qed.

Lemma category_of_failure (r : Request) (e : exn) :
  category_of (failure_result r e) = Some (reported_category r e).
Proof.
  unfold category_of, failure_result, field.
  destruct (reported_category r e); simpl; destruct (exn_msg e); reflexivity.
Qed.

End Outcomes.

(** C1 (as amended).  For every operation, every input and every world, the
    call returns a result and raises nothing: the value of its [try] suite,
    or, when the suite raised a fault, the failure result for it, which
    holds [success] false, the error message under the operation's prefix
    and the inputs [echoed_context] lists: the query, the table name, the
    table name and the data, or the source database; for [get_schema] the
    list is empty. *)
Theorem faults_become_failure_results (P : Platform) (r : Request) (w : World P) :
  match try_suite P r w with
  | (inl e, w1) => call P r w = (inr (failure_result r e), w1)
  | (inr v, w1) => call P r w = (inr v, w1)
  end.
Proof.
  rewrite call_outcome.
  destruct (try_suite P r w) as [[e | v] w1]; reflexivity.
Qed.

(** C1 (as stated) fails: [get_schema] on a path that cannot be opened
    returns [success] false and the message, and echoes nothing back. *)
Lemma get_schema_failure_echoes_nothing :
  ~ reported_with_context MiniSqlite.platform (GetSchema "/")
      (MiniSqlite.world_of "db" MiniSqlite.sample_db).
Proof.
  intro H.
  assert (Hsuite :
            fst (try_suite MiniSqlite.platform (GetSchema "/")
                   (MiniSqlite.world_of "db" MiniSqlite.sample_db))
            = inl (Exn Sqlite3Error "unable to open database file"))
    by (vm_compute; reflexivity).
  destruct (H _ Hsuite) as (res & msg & Hcall & _ & _ & Hctx).
  rewrite call_result, Hsuite in Hcall.
  injection Hcall as <-.
  apply Hctx. reflexivity.
Qed.

(** C2 (as amended).  Six operations report an engine fault under
    [SQLite error: ] and any other fault under [Unexpected error: ];
    [backup_database] has one handler and reports every fault, of either
    kind, under [Backup error: ]. *)
Theorem faults_reported_by_category (P : Platform) (r : Request) (w : World P)
    (e : exn) :
  fst (try_suite P r w) = inl e ->
  exists res,
    fst (call P r w) = inr res /\
    category_of res = Some (reported_category r e) /\
    reported_category r e =
      match r with
      | BackupDatabase _ _ => BackupError
      | _ => if isinstance_sqlite3_Error e then EngineError else UnexpectedError
      end.
Proof.
  intro Hsuite.
  exists (failure_result r e).
  rewrite call_result, Hsuite.
  split; [reflexivity | split].
  - apply category_of_failure.
  - destruct r; reflexivity.
Qed.

Lemma faults_reported_by_category_witness :
  exists res,
    fst (call MiniSqlite.platform (ExecuteQuery "SELECT * FROM nope" "db" None)
           (MiniSqlite.world_of "db" MiniSqlite.sample_db)) = inr res /\
    category_of res = Some EngineError.
Proof.
  destruct (faults_reported_by_category MiniSqlite.platform
              (ExecuteQuery "SELECT * FROM nope" "db" None)
              (MiniSqlite.world_of "db" MiniSqlite.sample_db)
              (Exn Sqlite3Error "no such table: nope"))
    as (res & Hcall & Hcat & _).
  - vm_compute. reflexivity.
  - exists res. split; [exact Hcall | exact Hcat].
Defined.

(** C2 (as stated) fails: [backup_database] on a database that cannot be
    opened meets an engine fault and does not report it under the engine
    category. *)
Lemma backup_engine_fault_not_engine_category :
  ~ reported_by_kind MiniSqlite.platform (BackupDatabase "/no/such/dir/db" None)
      (MiniSqlite.world_of "db" MiniSqlite.sample_db).
Proof.
  intro H.
  assert (Hsuite :
            fst (try_suite MiniSqlite.platform (BackupDatabase "/no/such/dir/db" None)
                   (MiniSqlite.world_of "db" MiniSqlite.sample_db))
            = inl (Exn Sqlite3Error "unable to open database file"))
    by (vm_compute; reflexivity).
  destruct (H _ Hsuite) as (res & Hcall & Hcat).
  rewrite call_result, Hsuite in Hcall.
  injection Hcall as <-.
  vm_compute in Hcat.
  discriminate Hcat.
Qed.

(* ================================================================= *)
(** ** Handles: what a call does to the connection it opens *)

Lemma nth_error_fresh {A : Type} (l : list A) (x : A) :
  nth_error (l ++ [x])%list (length l) = Some x.
Proof.
  induction l as [| y l IH]; simpl; [reflexivity | exact IH].
Qed.

Lemma list_set_fresh {A : Type} (l : list A) (x y : A) :
  list_set (l ++ [x])%list (length l) y = (l ++ [y])%list.
Proof.
  induction l as [| z l IH]; simpl; [reflexivity | now rewrite IH].
Qed.

Section Handles.

Variable P : Platform.

(** *** The calls on the newest handle *)

Lemma cursor_execute_attach (b : World P) (c : Conn P) (n : nat)
    (stmt : string) (params : list pyval) :
  length (conns b) = n ->
  cursor_execute P n stmt params (attach b c) =
  match engine_execute P (conn_work c) stmt params with
  | inl e => (inl e, attach (log (EvExecute stmt params) b) c)
  | inr (d', cur) =>
      (inr cur, attach (log (EvExecute stmt params) b) (with_work c d'))
  end.
Proof.
  intros <-. unfold cursor_execute, attach. cbn [conns set_conns].
  rewrite nth_error_fresh.
  destruct (engine_execute P (conn_work c) stmt params) as [e | [d' cur]].
  - reflexivity.
  - rewrite list_set_fresh. reflexivity.
Qed.

Lemma conn_commit_attach (b : World P) (c : Conn P) (n : nat) :
  length (conns b) = n ->
  conn_commit P n (attach b c) =
  (inr tt,
   attach (log EvCommit (set_disk (conn_path c) (Content (conn_work c)) b)) c).
Proof.
  intros <-. unfold conn_commit, attach. cbn [conns set_conns].
  rewrite nth_error_fresh. reflexivity.
Qed.

Lemma conn_rollback_attach (b : World P) (c : Conn P) (n : nat) :
  length (conns b) = n ->
  conn_rollback P n (attach b c) =
  match disk b (conn_path c) with
  | Content d => (inr tt, attach (log EvRollback b) (with_work c d))
  | Unopenable _ => (inr tt, attach (log EvRollback b) c)
  end.
Proof.
  intros <-. unfold conn_rollback, attach. cbn [conns set_conns disk].
  rewrite nth_error_fresh.
  destruct (disk b (conn_path c)).
  - reflexivity.
  - rewrite list_set_fresh. reflexivity.
Qed.

Lemma now_attach (b : World P) (c : Conn P) :
  now P (attach b c) = (inr (clock b), attach (tick b) c).
Proof. reflexivity. Qed.

Lemma get_db_connection_content (w : World P) (db_path : string)
    (d : database P) :
  disk w db_path = Content d ->
  get_db_connection P db_path w =
  (inr (length (conns w)),
   attach (log (EvConnect db_path) w) (fresh_conn db_path d)).
Proof.
  intro H. unfold get_db_connection. rewrite H. reflexivity.
Qed.

Lemma get_db_connection_unopenable (w : World P) (db_path msg : string) :
  disk w db_path = Unopenable msg ->
  get_db_connection P db_path w = (inl (Exn Sqlite3Error msg), w).
Proof.
  intro H. unfold get_db_connection. rewrite H. reflexivity.
Qed.

(** *** Steps inside a [with] block *)

Lemma no_close_nil : no_close [].
Proof. intros []. Qed.

Lemma no_close_app (tr1 tr2 : list Event) :
  no_close tr1 -> no_close tr2 -> no_close (tr1 ++ tr2)%list.
Proof.
  unfold no_close. intros H1 H2 Hin.
  apply in_app_or in Hin. tauto.
Qed.

Lemma no_close_one (ev : Event) : ev <> EvClose -> no_close [ev].
Proof.
  intros Hne [H | []]. now apply Hne.
Qed.

Lemma step_refl (b : World P) (c : Conn P) : step b c b c.
Proof.
  repeat split; auto.
  exists []. split; [now rewrite app_nil_r | apply no_close_nil].
Qed.

Lemma step_trans (b1 : World P) (c1 : Conn P) (b2 : World P) (c2 : Conn P)
    (b3 : World P) (c3 : Conn P) :
  step b1 c1 b2 c2 -> step b2 c2 b3 c3 -> step b1 c1 b3 c3.
Proof.
  intros (Hc1 & Hp1 & Hf1 & (tr1 & He1 & Hn1) & Hd1)
         (Hc2 & Hp2 & Hf2 & (tr2 & He2 & Hn2) & Hd2).
  repeat split.
  - congruence.
  - congruence.
  - congruence.
  - exists (tr1 ++ tr2)%list. split.
    + rewrite He2, He1, app_assoc. reflexivity.
    + now apply no_close_app.
  - intros p Hp. apply Hd2, Hd1, Hp.
Qed.

Lemma step_log (b : World P) (c c' : Conn P) (ev : Event) :
  ev <> EvClose ->
  conn_path c' = conn_path c ->
  conn_closed c' = conn_closed c ->
  step b c (log ev b) c'.
Proof.
  intros Hne Hp Hf. repeat split; auto.
  - exists [ev]. split; [reflexivity | now apply no_close_one].
Qed.

Lemma local_ret (n : nat) {A : Type} (a : A) : local n (@ret P A a).
Proof.
  intros b c _. exists b, c, (inr a). split; [reflexivity | apply step_refl].
Qed.

Lemma local_raise (n : nat) {A : Type} (e : exn) : local n (@raise P A e).
Proof.
  intros b c _. exists b, c, (inl e). split; [reflexivity | apply step_refl].
Qed.

Lemma local_bind (n : nat) {A B : Type} (m : M P A) (k : A -> M P B) :
  local n m -> (forall a, local n (k a)) -> local n (bind m k).
Proof.
  intros Hm Hk b c Hlen.
  destruct (Hm b c Hlen) as (b1 & c1 & r & Heq & Hstep).
  unfold bind. rewrite Heq.
  destruct r as [e | a].
  - exists b1, c1, (inl e). split; [reflexivity | exact Hstep].
  - assert (Hlen1 : length (conns b1) = n)
      by (destruct Hstep as (Hc & _); now rewrite Hc).
    destruct (Hk a b1 c1 Hlen1) as (b2 & c2 & r2 & Heq2 & Hstep2).
    exists b2, c2, r2. split; [exact Heq2 | eapply step_trans; eassumption].
Qed.

Lemma local_for_each (n : nat) {A S : Type} (l : list A)
    (body : A -> S -> M P S) :
  (forall x s, local n (body x s)) -> forall s, local n (for_each P l s body).
Proof.
  intro Hbody.
  induction l as [| x l IH]; intro s; cbn [for_each].
  - apply local_ret.
  - apply local_bind; [apply Hbody | intro s'; apply IH].
Qed.

Lemma local_comprehension (n : nat) {A B : Type} (f : A -> M P B) (l : list A) :
  (forall x, local n (f x)) -> local n (comprehension P f l).
Proof.
  intro Hf.
  induction l as [| x l IH]; cbn [comprehension].
  - apply local_ret.
  - apply local_bind; [apply Hf | intro y].
    apply local_bind; [exact IH | intro ys; apply local_ret].
Qed.

Lemma local_cursor_execute (n : nat) (stmt : string) (params : list pyval) :
  local n (cursor_execute P n stmt params).
Proof.
  intros b c Hlen.
  rewrite (cursor_execute_attach b c n stmt params Hlen).
  destruct (engine_execute P (conn_work c) stmt params) as [e | [d' cur]].
  - exists (log (EvExecute stmt params) b), c, (inl e).
    split; [reflexivity | now apply step_log].
  - exists (log (EvExecute stmt params) b), (with_work c d'), (inr cur).
    split; [reflexivity | now apply step_log].
Qed.

Lemma local_execute_with_optional_params (n : nat) (query : string)
    (params : option (list pyval)) :
  local n (execute_with_optional_params P n query params).
Proof.
  destruct params as [[| p ps] |]; apply local_cursor_execute.
Qed.

Lemma local_conn_commit (n : nat) : local n (conn_commit P n).
Proof.
  intros b c Hlen.
  rewrite (conn_commit_attach b c n Hlen).
  exists (log EvCommit (set_disk (conn_path c) (Content (conn_work c)) b)), c,
    (inr tt).
  split; [reflexivity |].
  repeat split; auto.
  - exists [EvCommit]. split; [reflexivity | now apply no_close_one].
  - intros p [d Hd]. cbn [log set_disk disk].
    destruct (String.eqb p (conn_path c)); eauto.
Qed.

Lemma local_now (n : nat) : local n (now P).
Proof.
  intros b c _. rewrite now_attach.
  exists (tick b), c, (inr (clock b)).
  split; [reflexivity |].
  repeat split; auto.
  exists []. split; [cbn; now rewrite app_nil_r | apply no_close_nil].
Qed.

Lemma local_row_index (n : nat) (r : Row) (i : nat) : local n (row_index P r i).
Proof.
  unfold row_index.
  destruct (nth_error r i) as [[k v] |]; [apply local_ret | apply local_raise].
Qed.

Lemma local_fetchone_0 (n : nat) (cur : Cursor) : local n (fetchone_0 P cur).
Proof.
  unfold fetchone_0.
  destruct (cur_rows cur); [apply local_raise | apply local_row_index].
Qed.

Lemma local_column_info (n : nat) (col : Row) : local n (column_info P col).
Proof.
  unfold column_info.
  repeat (apply local_bind; [apply local_row_index | intro]).
  apply local_ret.
Qed.

(** *** Steps outside a [with] block *)

Lemma qstep_refl (w : World P) : qstep w w.
Proof.
  repeat split. exists []. split; [now rewrite app_nil_r | apply no_close_nil].
Qed.

Lemma qstep_trans (w1 w2 w3 : World P) : qstep w1 w2 -> qstep w2 w3 -> qstep w1 w3.
Proof.
  intros (Hc1 & Hd1 & tr1 & He1 & Hn1) (Hc2 & Hd2 & tr2 & He2 & Hn2).
  repeat split.
  - congruence.
  - intro p. now rewrite Hd2.
  - exists (tr1 ++ tr2)%list. split.
    + rewrite He2, He1, app_assoc. reflexivity.
    + now apply no_close_app.
Qed.

Lemma quiet_ret {A : Type} (a : A) : quiet (@ret P A a).
Proof. intro w. apply qstep_refl. Qed.

Lemma quiet_raise {A : Type} (e : exn) : quiet (@raise P A e).
Proof. intro w. apply qstep_refl. Qed.

Lemma quiet_bind {A B : Type} (m : M P A) (k : A -> M P B) :
  quiet m -> (forall a, quiet (k a)) -> quiet (bind m k).
Proof.
  intros Hm Hk w. unfold bind.
  specialize (Hm w).
  destruct (m w) as [[e | a] w1]; cbn [snd] in *.
  - exact Hm.
  - eapply qstep_trans; [exact Hm | apply Hk].
Qed.

Lemma quiet_now : quiet (now P).
Proof.
  intro w. repeat split.
  exists []. split; [cbn; now rewrite app_nil_r | apply no_close_nil].
Qed.

Lemma quiet_default_backup_path (backup_path : option string) :
  quiet (default_backup_path P backup_path).
Proof.
  unfold default_backup_path.
  destruct (nonempty_text backup_path).
  - apply quiet_ret.
  - apply quiet_bind; [apply quiet_now | intro; apply quiet_ret].
Qed.

Lemma quiet_write_json (path : string) (v : pyval) : quiet (write_json P path v).
Proof.
  intro w. unfold write_json.
  destruct (write_fault w path); [apply qstep_refl |].
  destruct (json_serializable v); cbn [snd].
  - repeat split.
    exists [EvOpenWrite path; EvDump path]. split.
    + cbn. now rewrite <- app_assoc.
    + intros [H | [H | []]]; discriminate H.
  - repeat split.
    exists [EvOpenWrite path]. split; [reflexivity | now apply no_close_one].
Qed.

Lemma quiet_sum_row_counts (entries : list pyval) :
  quiet (sum_row_counts P entries).
Proof.
  induction entries as [| entry rest IH]; cbn [sum_row_counts].
  - apply quiet_ret.
  - destruct (field entry "row_count") as [[] |];
      try apply quiet_raise.
    apply quiet_bind; [exact IH | intro; apply quiet_ret].
Qed.

(** *** The [with] block and the seven operations *)

Lemma handle_left_open_qstep (w w' : World P) :
  qstep w w' -> handle_left_open w w'.
Proof.
  intros (Hc & _ & Htr). split; [exact Htr | now left].
Qed.

Lemma handle_left_open_after (w0 w1 w2 : World P) :
  qstep w0 w1 -> handle_left_open w1 w2 -> handle_left_open w0 w2.
Proof.
  intros (Hc & Hd & tr1 & He1 & Hn1) ((tr2 & He2 & Hn2) & Hconn).
  split.
  - exists (tr1 ++ tr2)%list. split.
    + rewrite He2, He1, app_assoc. reflexivity.
    + now apply no_close_app.
  - rewrite Hc in Hconn. exact Hconn.
Qed.

Lemma handle_left_open_before (w0 w1 w2 : World P) :
  handle_left_open w0 w1 -> qstep w1 w2 -> handle_left_open w0 w2.
Proof.
  intros ((tr1 & He1 & Hn1) & Hconn) (Hc & Hd & tr2 & He2 & Hn2).
  split.
  - exists (tr1 ++ tr2)%list. split.
    + rewrite He2, He1, app_assoc. reflexivity.
    + now apply no_close_app.
  - rewrite Hc.
    destruct Hconn as [Hsame | (c & Hnew & Hopen & Hclean)].
    + now left.
    + right. exists c. repeat split; auto. now rewrite Hd.
Qed.

Lemma with_connection_leaves_handle_open {A : Type} (db_path : string)
    (body : nat -> M P A) (w : World P) :
  (forall n, local n (body n)) ->
  handle_left_open w (snd (with_connection P db_path body w)).
Proof.
  intro Hbody.
  unfold with_connection, bind.
  destruct (disk w db_path) as [msg | d] eqn:Hdisk.
  - rewrite (get_db_connection_unopenable w db_path msg Hdisk).
    apply handle_left_open_qstep, qstep_refl.
  - rewrite (get_db_connection_content w db_path d Hdisk).
    set (b0 := log (EvConnect db_path) w).
    assert (Hlen : length (conns b0) = length (conns w)) by reflexivity.
    destruct (Hbody (length (conns w)) b0 (fresh_conn db_path d) Hlen)
      as (b1 & c1 & r & Heq & Hc & Hp & Hf & (tr & He & Hn) & Hd).
    rewrite Heq.
    assert (Hlen1 : length (conns b1) = length (conns w)) by now rewrite Hc.
    destruct r as [e | a].
    + rewrite (conn_rollback_attach b1 c1 _ Hlen1).
      destruct (Hd db_path (ex_intro _ d Hdisk)) as [d1 Hd1].
      rewrite Hp. cbn [fresh_conn conn_path]. rewrite Hd1. cbn [snd].
      split.
      * exists (EvConnect db_path :: tr ++ [EvRollback])%list. split.
        -- cbn [attach set_conns log events]. rewrite He. cbn [b0 log events].
           rewrite <- !app_assoc. reflexivity.
        -- intros [H | H]; [discriminate H |].
           apply in_app_or in H. destruct H as [H | [H | []]];
             [now apply Hn | discriminate H].
      * right. exists (with_work c1 d1). repeat split.
        -- cbn [attach set_conns log conns]. now rewrite Hc.
        -- cbn [with_work conn_closed]. now rewrite Hf.
        -- cbn [with_work conn_path conn_work attach set_conns log disk].
           rewrite Hp. exact Hd1.
    + rewrite (conn_commit_attach b1 c1 _ Hlen1). cbn [snd].
      split.
      * exists (EvConnect db_path :: tr ++ [EvCommit])%list. split.
        -- cbn [attach set_conns set_disk log events]. rewrite He.
           cbn [b0 log events]. rewrite <- !app_assoc. reflexivity.
        -- intros [H | H]; [discriminate H |].
           apply in_app_or in H. destruct H as [H | [H | []]];
             [now apply Hn | discriminate H].
      * right. exists c1. repeat split.
        -- cbn [attach set_conns set_disk log conns]. now rewrite Hc.
        -- now rewrite Hf.
        -- cbn [attach set_conns set_disk log disk].
           now rewrite String.eqb_refl.
Qed.

Lemma local_backup_tables (n : nat) (tables : list pyval) :
  local n (backup_tables P n tables).
Proof.
  unfold backup_tables.
  apply local_for_each. intros table acc.
  apply local_bind; [apply local_cursor_execute | intro; apply local_ret].
Qed.

Lemma try_suite_leaves_handle_open (r : Request) (w : World P) :
  handle_left_open w (snd (try_suite P r w)).
Proof.
  destruct r; cbn [try_suite].
  - apply with_connection_leaves_handle_open. intro n.
    apply local_bind; [apply local_execute_with_optional_params | intro].
    apply local_bind; [apply local_now | intro; apply local_ret].
  - apply with_connection_leaves_handle_open. intro n.
    apply local_bind; [apply local_execute_with_optional_params | intro].
    apply local_bind; [apply local_conn_commit | intro].
    apply local_bind; [apply local_now | intro; apply local_ret].
  - apply with_connection_leaves_handle_open. intro n.
    apply local_bind; [apply local_cursor_execute | intro].
    apply local_bind; [apply local_conn_commit | intro].
    apply local_bind; [apply local_now | intro; apply local_ret].
  - apply with_connection_leaves_handle_open. intro n.
    apply local_bind; [apply local_cursor_execute | intro].
    apply local_bind;
      [apply local_comprehension; intro; apply local_row_index | intro].
    apply local_bind; [apply local_now | intro].
    apply local_bind; [| intro; apply local_ret].
    apply local_for_each. intros table acc.
    apply local_bind; [apply local_cursor_execute | intro].
    apply local_bind;
      [apply local_comprehension; intro; apply local_column_info
      | intro; apply local_ret].
  - apply with_connection_leaves_handle_open. intro n.
    apply local_bind; [apply local_cursor_execute | intro].
    apply local_bind; [apply local_conn_commit | intro].
    apply local_bind; [apply local_now | intro; apply local_ret].
  - apply with_connection_leaves_handle_open. intro n.
    apply local_bind; [apply local_cursor_execute | intro].
    apply local_bind; [apply local_cursor_execute | intro].
    apply local_bind; [apply local_fetchone_0 | intro].
    apply local_bind; [apply local_now | intro; apply local_ret].
  - unfold backup_database_try, bind.
    pose proof (quiet_default_backup_path backup_path w) as H1.
    destruct (default_backup_path P backup_path w) as [[e | path] w1];
      cbn [snd] in *; [now apply handle_left_open_qstep |].
    pose proof (quiet_now w1) as H2.
    destruct (now P w1) as [[e | ts] w2]; cbn [snd] in *;
      [apply handle_left_open_qstep; eapply qstep_trans; eassumption |].
    assert (H12 : qstep w w2) by (eapply qstep_trans; eassumption).
    apply (handle_left_open_after w w2); [exact H12 |].
    match goal with
    | |- context [with_connection P db_path ?body w2] =>
        pose proof (with_connection_leaves_handle_open db_path body w2) as H3;
        destruct (with_connection P db_path body w2) as [[e | tables] w3]
    end; cbn [snd] in *.
    + apply H3. intro n.
      apply local_bind; [apply local_cursor_execute | intro].
      apply local_bind;
        [apply local_comprehension; intro; apply local_row_index | intro].
      apply local_backup_tables.
    + apply (handle_left_open_before w2 w3).
      * apply H3. intro n.
        apply local_bind; [apply local_cursor_execute | intro].
        apply local_bind;
          [apply local_comprehension; intro; apply local_row_index | intro].
        apply local_backup_tables.
      * pose proof (quiet_write_json path (backup_value P ts db_path tables) w3)
          as H4.
        destruct (write_json P path (backup_value P ts db_path tables) w3)
          as [[e | u] w4]; cbn [snd] in *; [exact H4 |].
        pose proof (quiet_sum_row_counts (dict_values tables) w4) as H5.
        destruct (sum_row_counts P (dict_values tables) w4) as [[e | total] w5];
          cbn [snd] in *; [eapply qstep_trans; eassumption |].
        pose proof (quiet_now w5) as H6.
        destruct (now P w5) as [[e | ts2] w6]; cbn [snd] in *;
          eapply qstep_trans; [exact H4 | | exact H4 |];
          eapply qstep_trans; eassumption.
Qed.

End Handles.



(* ================================================================= *)
(** ** Running a statement through a [with] block *)

Section Runs.

Variable P : Platform.

Lemma execute_with_optional_params_given (n : nat) (query : string)
    (params : option (list pyval)) :
  execute_with_optional_params P n query params =
  cursor_execute P n query (given_params params).
Proof.
  destruct params as [[| p ps] |]; reflexivity.
Qed.

Lemma execute_query_try_run (w : World P) (query db_path : string)
    (params : option (list pyval)) (d : database P) :
  disk w db_path = Content d ->
  execute_query_try P query db_path params w =
  match engine_execute P d query (given_params params) with
  | inl e => (inl e, rolled_back w db_path d query (given_params params))
  | inr (d', cur) =>
      (inr (PyDict [("success", PyBool true);
                    ("rows", PyList (map dict_of_row (cur_rows cur)));
                    ("row_count", PyInt (len (map dict_of_row (cur_rows cur))));
                    ("query", PyStr query);
                    ("timestamp", PyStr (isoformat P (clock w)))]),
       attach
         (log EvCommit
            (set_disk db_path (Content d')
               (tick (log (EvExecute query (given_params params))
                        (log (EvConnect db_path) w)))))
         (with_work (fresh_conn db_path d) d'))
  end.
Proof.
  intro Hdisk.
  unfold execute_query_try, with_connection, bind.
  rewrite (get_db_connection_content P w db_path d Hdisk).
  rewrite execute_with_optional_params_given.
  rewrite cursor_execute_attach by reflexivity.
  cbn [fresh_conn conn_work].
  destruct (engine_execute P d query (given_params params)) as [e | [d' cur]].
  - rewrite conn_rollback_attach by reflexivity.
    cbn [fresh_conn conn_path log disk]. rewrite Hdisk. reflexivity.
  - rewrite now_attach.
    cbn [ret].
    rewrite conn_commit_attach by reflexivity.
    reflexivity.
Qed.

Lemma execute_modification_try_run (w : World P) (query db_path : string)
    (params : option (list pyval)) (d : database P) :
  disk w db_path = Content d ->
  execute_modification_try P query db_path params w =
  match engine_execute P d query (given_params params) with
  | inl e => (inl e, rolled_back w db_path d query (given_params params))
  | inr (d', cur) =>
      (inr (PyDict [("success", PyBool true);
                    ("affected_rows", PyInt (cur_rowcount cur));
                    ("last_row_id", cur_lastrowid cur);
                    ("query", PyStr query);
                    ("timestamp", PyStr (isoformat P (clock w)))]),
       attach
         (log EvCommit
            (set_disk db_path (Content d')
               (tick
                  (log EvCommit
                     (set_disk db_path (Content d')
                        (log (EvExecute query (given_params params))
                           (log (EvConnect db_path) w)))))))
         (with_work (fresh_conn db_path d) d'))
  end.
Proof.
  intro Hdisk.
  unfold execute_modification_try, with_connection, bind.
  rewrite (get_db_connection_content P w db_path d Hdisk).
  rewrite execute_with_optional_params_given.
  rewrite cursor_execute_attach by reflexivity.
  cbn [fresh_conn conn_work].
  destruct (engine_execute P d query (given_params params)) as [e | [d' cur]].
  - rewrite conn_rollback_attach by reflexivity.
    cbn [fresh_conn conn_path log disk]. rewrite Hdisk. reflexivity.
  - rewrite conn_commit_attach by reflexivity.
    rewrite now_attach.
    cbn [ret].
    rewrite conn_commit_attach by reflexivity.
    reflexivity.
Qed.

Lemma create_table_try_run (w : World P) (table_name : string)
    (columns : list (string * string)) (db_path : string) (d : database P) :
  disk w db_path = Content d ->
  create_table_try P table_name columns db_path w =
  let sql := create_sql table_name columns in
  match engine_execute P d sql [] with
  | inl e => (inl e, rolled_back w db_path d sql [])
  | inr (d', cur) =>
      (inr (PyDict [("success", PyBool true);
                    ("table_name", PyStr table_name);
                    ("columns", columns_value columns);
                    ("sql", PyStr sql);
                    ("timestamp", PyStr (isoformat P (clock w)))]),
       attach
         (log EvCommit
            (set_disk db_path (Content d')
               (tick
                  (log EvCommit
                     (set_disk db_path (Content d')
                        (log (EvExecute sql [])
                           (log (EvConnect db_path) w)))))))
         (with_work (fresh_conn db_path d) d'))
  end.
Proof.
  intro Hdisk.
  unfold create_table_try, with_connection, bind.
  rewrite (get_db_connection_content P w db_path d Hdisk).
  rewrite cursor_execute_attach by reflexivity.
  cbn [fresh_conn conn_work].
  cbv zeta.
  destruct (engine_execute P d (create_sql table_name columns) [])
    as [e | [d' cur]].
  - rewrite conn_rollback_attach by reflexivity.
    cbn [fresh_conn conn_path log disk]. rewrite Hdisk. reflexivity.
  - rewrite conn_commit_attach by reflexivity.
    rewrite now_attach.
    cbn [ret].
    rewrite conn_commit_attach by reflexivity.
    reflexivity.
Qed.

End Runs.

(* ================================================================= *)
(** ** Text facts, and the laws MiniSqlite obeys *)

Lemma append_assoc (a b c : string) : (a ++ b) ++ c = a ++ b ++ c.
Proof.
  induction a as [| x a IH]; simpl; [reflexivity | now rewrite IH].
Qed.

Lemma split_char_nonempty (c : ascii) (s : string) : split_char c s <> [].
Proof.
  destruct s as [| a s]; simpl; [discriminate |].
  destruct (Ascii.eqb a c); [discriminate |].
  destruct (split_char c s); discriminate.
Qed.

Lemma split_char_app (c : ascii) (a b : string) :
  split_char c (a ++ String c b) = (split_char c a ++ split_char c b)%list.
Proof.
  induction a as [| x a IH]; simpl.
  - now rewrite Ascii.eqb_refl.
  - destruct (Ascii.eqb x c); [now rewrite IH |].
    rewrite IH.
    pose proof (split_char_nonempty c a) as Hne.
    destruct (split_char c a); [contradiction | reflexivity].
Qed.

Lemma split_char_lacks (c : ascii) (s : string) :
  lacks c s = true -> split_char c s = [s].
Proof.
  unfold lacks.
  induction s as [| a s IH]; simpl; [reflexivity |].
  intro H. apply andb_true_iff in H. destruct H as [Ha Hs].
  apply negb_true_iff in Ha. rewrite Ha, (IH Hs). reflexivity.
Qed.

Lemma break_at_app (c : ascii) (a b : string) :
  lacks c a = true -> break_at c (a ++ String c b) = Some (a, b).
Proof.
  unfold lacks.
  induction a as [| x a IH]; simpl.
  - now rewrite Ascii.eqb_refl.
  - intro H. apply andb_true_iff in H. destruct H as [Hx Ha].
    apply negb_true_iff in Hx. rewrite Hx, (IH Ha). reflexivity.
Qed.

Lemma uint_lacks_space (d : uint) : lacks " " (NilEmpty.string_of_uint d) = true.
Proof.
  unfold lacks. induction d; simpl; auto.
Qed.

Lemma str_of_int_lacks_space (z : Z) : lacks " " (str_of_int z) = true.
Proof.
  unfold str_of_int, NilZero.string_of_int, NilZero.string_of_uint.
  destruct (Z.to_int z) as [d | d]; destruct d;
    try reflexivity; try apply uint_lacks_space;
    unfold lacks; simpl; apply uint_lacks_space.
Qed.

Lemma parse_int_str_of_int (z : Z) : parse_int (str_of_int z) = Some z.
Proof.
  unfold parse_int, str_of_int.
  rewrite NilZero.isi.
  - simpl. now rewrite DecimalZ.of_to.
  - destruct z; simpl; try discriminate.
    intros [= H]. now apply (DecimalPos.Unsigned.to_uint_nonnil p).
  - destruct z; simpl; try discriminate.
    intros [= H]. now apply (DecimalPos.Unsigned.to_uint_nonnil p).
Qed.

Lemma page_query_shape (t : string) (l o : Z) (wc : option string) :
  page_query t l o wc =
  "SELECT * FROM "
    ++ (page_source t wc
          ++ String " " ("LIMIT"
          ++ String " " (str_of_int l
          ++ String " " ("OFFSET"
          ++ String " " (str_of_int o))))).
Proof.
  unfold page_query, page_source.
  destruct (nonempty_text wc) as [w |].
  - rewrite !append_assoc. reflexivity.
  - rewrite !append_assoc. reflexivity.
Qed.

Lemma window_length (l o : Z) (rows : list Row) :
  (0 <= l)%Z -> (len (MiniSqlite.window l o rows) <= l)%Z.
Proof.
  intro Hl. unfold MiniSqlite.window, len.
  destruct (Z.ltb_spec l 0); [lia |].
  rewrite length_firstn. lia.
Qed.

Lemma mini_limit_bound : limit_bound MiniSqlite.platform.
Proof.
  intros d t l o wc d' cur Hl _.
  rewrite page_query_shape.
  cbn [engine_execute MiniSqlite.platform].
  unfold MiniSqlite.execute.
  set (src := page_source t wc).
  set (tail := String " " ("LIMIT" ++ _)).
  change (strip_prefix "INSERT INTO " ("SELECT * FROM " ++ (src ++ tail)))
    with (@None string).
  change (strip_prefix "SELECT " ("SELECT * FROM " ++ (src ++ tail)))
    with (Some ("* FROM " ++ (src ++ tail))).
  unfold MiniSqlite.select.
  change (String.eqb ("* FROM " ++ (src ++ tail))
            "name FROM sqlite_master WHERE type='table'") with false.
  change (strip_prefix "COUNT(*) FROM " ("* FROM " ++ (src ++ tail)))
    with (@None string).
  change (strip_prefix "* FROM " ("* FROM " ++ (src ++ tail)))
    with (Some (src ++ tail)).
  unfold MiniSqlite.select_star.
  subst tail.
  rewrite split_char_app.
  rewrite (split_char_app " " "LIMIT").
  rewrite (split_char_app " " (str_of_int l)).
  rewrite (split_char_app " " "OFFSET").
  rewrite !(split_char_lacks " " (str_of_int _)) by apply str_of_int_lacks_space.
  change (split_char " " "LIMIT") with ["LIMIT"].
  change (split_char " " "OFFSET") with ["OFFSET"].
  rewrite rev_app_distr.
  cbn [List.rev List.app MiniSqlite.limit_clause].
  change (String.eqb "OFFSET" "OFFSET") with true.
  change (String.eqb "LIMIT" "LIMIT") with true.
  cbn [andb].
  rewrite !parse_int_str_of_int.
  destruct (MiniSqlite.source d (List.rev (List.rev (split_char " " src))))
    as [e | [tb keep]]; [discriminate |].
  intros [= _ <-].
  cbn [cur_rows MiniSqlite.query_cursor].
  now apply window_length.
Qed.

Lemma mini_master_lists_tables : master_lists_tables MiniSqlite.platform.
Proof.
  intros d d' cur.
  cbn [engine_execute table_names MiniSqlite.platform].
  unfold MiniSqlite.execute, list_tables_sql.
  change (strip_prefix "INSERT INTO "
            "SELECT name FROM sqlite_master WHERE type='table'")
    with (@None string).
  change (strip_prefix "SELECT "
            "SELECT name FROM sqlite_master WHERE type='table'")
    with (Some "name FROM sqlite_master WHERE type='table'").
  unfold MiniSqlite.select.
  change (String.eqb "name FROM sqlite_master WHERE type='table'"
            "name FROM sqlite_master WHERE type='table'") with true.
  cbv beta iota.
  intros [= _ <-].
  cbn [cur_rows MiniSqlite.query_cursor].
  now rewrite map_map.
Qed.

Lemma is_ident_char_not_space (a : ascii) :
  is_ident_char a = true -> negb (Ascii.eqb a " ") = true.
Proof.
  intro H. destruct (Ascii.eqb_spec a " ") as [-> | _]; [discriminate H | reflexivity].
Qed.

Lemma all_chars_impl (f g : ascii -> bool) (s : string) :
  (forall a, f a = true -> g a = true) ->
  all_chars f s = true -> all_chars g s = true.
Proof.
  intro Himp.
  induction s as [| a s IH]; simpl; [reflexivity |].
  intro H. apply andb_true_iff in H. destruct H as [Ha Hs].
  now rewrite (Himp a Ha), (IH Hs).
Qed.

Lemma bare_lacks_space (name : string) :
  MiniSqlite.bare name = true -> lacks " " name = true.
Proof.
  unfold MiniSqlite.bare, lacks.
  destruct name as [| a s]; [discriminate |].
  intro H.
  apply andb_true_iff in H. destruct H as [H _].
  apply andb_true_iff in H. destruct H as [H _].
  revert H. apply all_chars_impl. exact is_ident_char_not_space.
Qed.

Lemma filter_all {A : Type} (l : list A) : filter (fun _ => true) l = l.
Proof.
  induction l as [| x l IH]; simpl; [reflexivity | now rewrite IH].
Qed.

Lemma mini_scan_reads_table : scan_reads_table MiniSqlite.platform.
Proof.
  intros d name d' cur Hbare _.
  cbn [engine_execute table_rows MiniSqlite.platform].
  unfold MiniSqlite.execute.
  change (strip_prefix "INSERT INTO " ("SELECT * FROM " ++ name))
    with (@None string).
  change (strip_prefix "SELECT " ("SELECT * FROM " ++ name))
    with (Some ("* FROM " ++ name)).
  unfold MiniSqlite.select.
  change (String.eqb ("* FROM " ++ name)
            "name FROM sqlite_master WHERE type='table'") with false.
  change (strip_prefix "COUNT(*) FROM " ("* FROM " ++ name)) with (@None string).
  change (strip_prefix "* FROM " ("* FROM " ++ name)) with (Some name).
  unfold MiniSqlite.select_star.
  rewrite (split_char_lacks " " name (bare_lacks_space name Hbare)).
  cbn [List.rev List.app MiniSqlite.limit_clause MiniSqlite.source].
  destruct (MiniSqlite.find_table d name) as [tb |]; [| discriminate].
  intros [= _ <-].
  cbn [cur_rows MiniSqlite.query_cursor].
  unfold MiniSqlite.rows_of. now rewrite filter_all.
Qed.

Lemma find_table_in (d : MiniSqlite.Db) (name : string) :
  In name (map MiniSqlite.t_name d) -> exists tb, MiniSqlite.find_table d name = Some tb.
Proof.
  induction d as [| t d IH]; simpl; [intros [] |].
  intros [H | H].
  - subst name. rewrite String.eqb_refl. eauto.
  - destruct (String.eqb (MiniSqlite.t_name t) name); eauto.
Qed.

Lemma mini_create_existing_noop : create_existing_noop MiniSqlite.platform.
Proof.
  intros d name body d' cur Hbare Hin.
  cbn [engine_execute table_names MiniSqlite.platform] in *.
  unfold MiniSqlite.execute.
  set (rest := name ++ " (" ++ body ++ ")").
  change (strip_prefix "INSERT INTO " ("CREATE TABLE IF NOT EXISTS " ++ rest))
    with (@None string).
  change (strip_prefix "SELECT " ("CREATE TABLE IF NOT EXISTS " ++ rest))
    with (@None string).
  change (strip_prefix "PRAGMA table_info(" ("CREATE TABLE IF NOT EXISTS " ++ rest))
    with (@None string).
  change (strip_prefix "DELETE FROM " ("CREATE TABLE IF NOT EXISTS " ++ rest))
    with (@None string).
  change (strip_prefix "CREATE TABLE IF NOT EXISTS "
            ("CREATE TABLE IF NOT EXISTS " ++ rest))
    with (Some rest).
  unfold MiniSqlite.create, MiniSqlite.create_parts.
  subst rest.
  change (name ++ " (" ++ body ++ ")")
    with (name ++ String " " ("(" ++ body ++ ")")).
  rewrite (break_at_app " " name _ (bare_lacks_space name Hbare)).
  destruct (strip_prefix "(" ("(" ++ body ++ ")")) as [inside |];
    [| discriminate].
  destruct (drop_last ")" inside) as [b |]; [| discriminate].
  destruct (MiniSqlite.column_list (split_char "," b)) as [cols |];
    [| discriminate].
  destruct (String.eqb name ""); [discriminate |].
  destruct (find_table_in d name Hin) as [tb ->].
  intros [= <- _]. reflexivity.
Qed.

Lemma mini_select_readonly : select_readonly MiniSqlite.platform.
Proof.
  intros d rest params d' cur.
  cbn [engine_execute MiniSqlite.platform].
  unfold MiniSqlite.execute.
  change (strip_prefix "INSERT INTO " ("SELECT" ++ rest)) with (@None string).
  change (strip_prefix "SELECT " ("SELECT" ++ rest)) with (strip_prefix " " rest).
  change (strip_prefix "PRAGMA table_info(" ("SELECT" ++ rest)) with (@None string).
  change (strip_prefix "DELETE FROM " ("SELECT" ++ rest)) with (@None string).
  change (strip_prefix "CREATE TABLE IF NOT EXISTS " ("SELECT" ++ rest))
    with (@None string).
  destruct params as [| p ps]; [| discriminate].
  destruct (strip_prefix " " rest) as [r |]; [| discriminate].
  destruct (MiniSqlite.select d r); [discriminate |].
  intros [= <- _]. reflexivity.
Qed.

(* ================================================================= *)
(** ** [execute_query] and [execute_modification] *)






(* ================================================================= *)
(** ** [create_table] *)

Lemma column_defs_from (columns : list (string * string)) (acc : list string) :
  fold_left (fun defs c => List.app defs [fst c ++ " " ++ snd c]) columns acc
  = List.app acc (map (fun c => fst c ++ " " ++ snd c) columns).
Proof.
  revert acc.
  induction columns as [| c columns IH]; intro acc; cbn [fold_left map].
  - now rewrite app_nil_r.
  - rewrite IH, <- app_assoc. reflexivity.
Qed.

Lemma concat_column_list (c : string * string) (columns : list (string * string)) :
  String.concat ", " (map (fun c => fst c ++ " " ++ snd c) (c :: columns))
  = column_list_text (c :: columns).
Proof.
  revert c.
  induction columns as [| c' columns IH]; intros [name type].
  - reflexivity.
  - change (String.concat ", "
              (map (fun c => fst c ++ " " ++ snd c) ((name, type) :: c' :: columns)))
      with ((name ++ " " ++ type) ++ ", "
              ++ String.concat ", "
                   (map (fun c => fst c ++ " " ++ snd c) (c' :: columns))).
    rewrite IH, append_assoc. reflexivity.
Qed.

Lemma join_column_defs (columns : list (string * string)) :
  join ", " (column_defs columns) = column_list_text columns.
Proof.
  unfold column_defs, join. rewrite column_defs_from. cbn [List.app].
  destruct columns as [| c columns]; [reflexivity | apply concat_column_list].
Qed.

Lemma create_sql_text (table_name : string) (columns : list (string * string)) :
  create_sql table_name columns = create_statement_text table_name columns.
Proof.
  unfold create_sql, create_statement_text. now rewrite join_column_defs.
Qed.



(** C7 (as amended).  [create_table] always builds the [IF NOT EXISTS]
    form.  Called with the name of a table that exists (a bare name), it
    leaves the content of the database file as it was, whatever the
    columns; it returns success when the engine accepts the statement it
    built, and an engine-error failure when the engine refuses it, as
    for a column map that makes the statement malformed. *)
Theorem create_table_existing (P : Platform) (w : World P) (table_name : string)
    (columns : list (string * string)) (db_path : string) (d : database P) :
  create_existing_noop P ->
  disk w db_path = Content d ->
  bare_name P table_name = true ->
  In table_name (table_names P d) ->
  let out := create_table P table_name columns db_path w in
  disk (snd out) db_path = Content d /\
  match engine_execute P d (create_sql table_name columns) [] with
  | inr _ =>
      exists res, fst out = inr res /\ field res "success" = Some (PyBool true)
  | inl e =>
      fst out = inr (failure_result (CreateTable table_name columns db_path) e)
  end.
Proof.
  intros Hnoop Hdisk Hbare Hin out. subst out.
  change (create_table P table_name columns db_path)
    with (call P (CreateTable table_name columns db_path)).
  rewrite call_world, call_result. cbn [try_suite].
  rewrite (create_table_try_run P w table_name columns db_path d Hdisk).
  cbv zeta. unfold rolled_back.
  destruct (engine_execute P d (create_sql table_name columns) [])
    as [e | [d' cur]] eqn:Hrun;
    cbn [fst snd attach set_conns log set_disk tick disk events]; split.
  - exact Hdisk.
  - reflexivity.
  - rewrite String.eqb_refl.
    unfold create_sql in Hrun.
    now rewrite (Hnoop d table_name _ d' cur Hbare Hin Hrun).
  - eexists. split; reflexivity.
Qed.

Lemma create_table_existing_witness :
  let out :=
    create_table MiniSqlite.platform "t" [("zz", "TEXT")] "db"
      (MiniSqlite.world_of "db" MiniSqlite.sample_db) in
  disk (snd out) "db" = @Content MiniSqlite.platform MiniSqlite.sample_db /\
  exists res, fst out = inr res /\ field res "success" = Some (PyBool true).
Proof.
  exact (create_table_existing MiniSqlite.platform
           (MiniSqlite.world_of "db" MiniSqlite.sample_db)
           "t" [("zz", "TEXT")] "db" MiniSqlite.sample_db
           mini_create_existing_noop eq_refl eq_refl (or_introl eq_refl)).
Defined.

(** C7 (as stated) fails: the table [t] exists, and [create_table] called
    for [t] with an empty column map builds [CREATE TABLE IF NOT EXISTS t
    ()], which the engine refuses as a syntax error: the call returns a
    failure. *)
Lemma create_table_existing_empty_columns_fails :
  ~ create_existing_succeeds MiniSqlite.platform
      (MiniSqlite.world_of "db" MiniSqlite.sample_db) "t" [] "db".
Proof.
  intro H.
  destruct (H MiniSqlite.sample_db eq_refl (or_introl eq_refl))
    as (res & Hres & Hok).
  assert (Hfail :
            fst (create_table MiniSqlite.platform "t" [] "db"
                   (MiniSqlite.world_of "db" MiniSqlite.sample_db))
            = inr (PyDict [("success", PyBool false);
                           ("error", PyStr "SQLite error: syntax error");
                           ("table_name", PyStr "t")]))
    by (vm_compute; reflexivity).
  rewrite Hfail in Hres. injection Hres as <-.
  discriminate Hok.
Qed.

(* ================================================================= *)
(** ** [get_table_data] *)

Section Pages.

Variable P : Platform.

Lemma fetchone_0_value (cur : Cursor) (w : World P) :
  fetchone_0 P cur w = (first_value cur, w).
Proof.
  unfold fetchone_0, first_value, row_index.
  destruct (cur_rows cur) as [| [| [k v] r] rows]; reflexivity.
Qed.

(** The result of the [try] suite of [get_table_data] on a database file
    that opens. *)
Lemma get_table_data_try_result (w : World P) (table_name : string)
    (limit offset : Z) (where_clause : option string) (db_path : string)
    (d : database P) :
  disk w db_path = Content d ->
  fst (get_table_data_try P table_name limit offset where_clause db_path w) =
  match engine_execute P d (page_query table_name limit offset where_clause) []
  with
  | inl e => inl e
  | inr (d1, cur) =>
      match engine_execute P d1 (count_query table_name where_clause) [] with
      | inl e => inl e
      | inr (_, cur2) =>
          match first_value cur2 with
          | inl e => inl e
          | inr total =>
              inr (PyDict
                     [("success", PyBool true);
                      ("table_name", PyStr table_name);
                      ("rows", PyList (map dict_of_row (cur_rows cur)));
                      ("returned_rows",
                        PyInt (len (map dict_of_row (cur_rows cur))));
                      ("total_rows", total);
                      ("limit", PyInt limit);
                      ("offset", PyInt offset);
                      ("where_clause", optional_str where_clause);
                      ("timestamp", PyStr (isoformat P (clock w)))])
          end
      end
  end.
Proof.
  intro Hdisk.
  unfold get_table_data_try, with_connection, bind.
  rewrite (get_db_connection_content P w db_path d Hdisk).
  rewrite cursor_execute_attach by reflexivity.
  cbn [fresh_conn conn_work].
  destruct (engine_execute P d
              (page_query table_name limit offset where_clause) [])
    as [e | [d1 cur]].
  { rewrite conn_rollback_attach by reflexivity.
    destruct (disk _ _); reflexivity. }
  rewrite cursor_execute_attach by reflexivity.
  cbn [with_work conn_work].
  destruct (engine_execute P d1 (count_query table_name where_clause) [])
    as [e | [d2 cur2]].
  { rewrite conn_rollback_attach by reflexivity.
    destruct (disk _ _); reflexivity. }
  rewrite fetchone_0_value.
  destruct (first_value cur2) as [e | total].
  { rewrite conn_rollback_attach by reflexivity.
    destruct (disk _ _); reflexivity. }
  rewrite now_attach. cbn [ret].
  rewrite conn_commit_attach by reflexivity.
  reflexivity.
Qed.

Lemma page_query_select (table_name : string) (limit offset : Z)
    (where_clause : option string) :
  exists rest, page_query table_name limit offset where_clause = "SELECT" ++ rest.
Proof.
  rewrite page_query_shape. eexists. reflexivity.
Qed.

End Pages.





(* ================================================================= *)
(** ** [backup_database] *)

Lemma dict_set_new {V : Type} (acc : list (string * V)) (k : string) (v : V) :
  ~ In k (dict_keys acc) -> dict_set acc k v = (acc ++ [(k, v)])%list.
Proof.
  induction acc as [| [k' v'] acc IH]; cbn [dict_set dict_keys map fst In app].
  - reflexivity.
  - intro Hnot.
    destruct (String.eqb_spec k k') as [-> | _]; [tauto |].
    rewrite IH by tauto. reflexivity.
Qed.

Section Backups.

Variable P : Platform.

Hypothesis Hselect : select_readonly P.
Hypothesis Hmaster : master_lists_tables P.
Hypothesis Hscan : scan_reads_table P.

Lemma comprehension_names (names : list string) (w : World P) :
  comprehension P (fun row => row_index P row 0)
    (map (fun name => [("name", PyStr name)]) names) w
  = (inr (map PyStr names), w).
Proof.
  induction names as [| name names IH]; cbn [comprehension map].
  - reflexivity.
  - unfold bind. cbn [row_index nth_error ret]. rewrite IH. reflexivity.
Qed.

Lemma sum_row_counts_entries (d : database P) (names : list string)
    (w : World P) :
  sum_row_counts P (map (table_entry P d) names) w
  = (inr (sum (map (fun name => len (table_rows P d name)) names)), w).
Proof.
  induction names as [| name names IH]; cbn [sum_row_counts map].
  - reflexivity.
  - unfold table_entry at 1. cbn [field dict_get String.eqb Ascii.eqb Bool.eqb].
    unfold bind. rewrite IH. reflexivity.
Qed.

(** The loop over the tables, on the handle [n] whose working content is
    [d]: when it ends without an exception, it has added the entry of
    each table to the accumulator, in order. *)
Lemma backup_tables_loop (d : database P) (n : nat) (names : list string) :
  forall (acc : list (string * pyval)) (b : World P) (c : Conn P),
    length (conns b) = n ->
    conn_work c = d ->
    Forall (fun name => bare_name P name = true) names ->
    (forall name, In name names -> In name (table_names P d)) ->
    NoDup names ->
    (forall name, In name names -> ~ In name (dict_keys acc)) ->
    exists b' c' r,
      for_each P (map PyStr names) acc
        (fun table acc =>
           bind (cursor_execute P n ("SELECT * FROM " ++ py_str P table) [])
             (fun cursor =>
                ret (dict_set acc (py_str P table)
                       (PyDict [("data", PyList (map dict_of_row (cur_rows cursor)));
                                ("row_count", PyInt (len (cur_rows cursor)))]))))
        (attach b c)
      = (r, attach b' c') /\
      length (conns b') = n /\
      (forall tables,
          r = inr tables ->
          tables = (acc ++ map (fun name => (name, table_entry P d name)) names)%list).
Proof.
  induction names as [| name names IH];
    intros acc b c Hlen Hwork Hbare Hin Hnodup Hfresh.
  - exists b, c, (inr acc). cbn [map for_each ret]. repeat split; auto.
    intros tables [= <-]. now rewrite app_nil_r.
  - cbn [map for_each]. unfold bind at 1. unfold bind at 1.
    cbn [py_str].
    rewrite (cursor_execute_attach P b c n _ [] Hlen).
    rewrite Hwork.
    destruct (engine_execute P d ("SELECT * FROM " ++ name) [])
      as [e | [d' cur]] eqn:Hrun.
    + exists (log (EvExecute ("SELECT * FROM " ++ name) []) b), c, (inl e).
      repeat split; auto. intros tables H. discriminate H.
    + assert (Hd' : d' = d)
        by exact (Hselect d (" * FROM " ++ name) [] d' cur Hrun).
      subst d'.
      assert (Hrows : cur_rows cur = table_rows P d name).
      { apply (Hscan d name d cur).
        - now inversion Hbare.
        - apply Hin. now left.
        - exact Hrun. }
      cbn [ret]. rewrite Hrows.
      rewrite dict_set_new by (apply Hfresh; now left).
      change (PyDict [("data", PyList (map dict_of_row (table_rows P d name)));
                      ("row_count", PyInt (len (table_rows P d name)))])
        with (table_entry P d name).
      destruct (IH (acc ++ [(name, table_entry P d name)])%list
                  (log (EvExecute ("SELECT * FROM " ++ name) []) b)
                  (with_work c d))
        as (b' & c' & r & Hloop & Hlen' & Htables).
      * exact Hlen.
      * reflexivity.
      * now inversion Hbare.
      * intros x Hx. apply Hin. now right.
      * now inversion Hnodup.
      * intros x Hx Hkey.
        unfold dict_keys in Hkey. rewrite map_app in Hkey.
        apply in_app_or in Hkey. destruct Hkey as [Hkey | [Hkey | []]].
        -- apply (Hfresh x); [now right | exact Hkey].
        -- cbn [fst] in Hkey. subst x. now inversion Hnodup.
      * exists b', c', r. repeat split; auto.
        intros tables Hr. rewrite (Htables tables Hr), <- app_assoc. reflexivity.
Qed.

(** The tables the [with] block of [backup_database] yields. *)
Lemma backup_connection_tables (w : World P) (db_path : string)
    (d : database P) (tables : list (string * pyval)) :
  disk w db_path = Content d ->
  Forall (fun name => bare_name P name = true) (table_names P d) ->
  NoDup (table_names P d) ->
  fst (with_connection P db_path
         (fun conn =>
            bind (cursor_execute P conn list_tables_sql [])
              (fun cursor =>
                 bind (comprehension P (fun row => row_index P row 0)
                         (cur_rows cursor))
                   (fun tables => backup_tables P conn tables))) w)
    = inr tables ->
  tables = snapshot_tables P d.
Proof.
  intros Hdisk Hbare Hnodup.
  unfold with_connection, bind.
  rewrite (get_db_connection_content P w db_path d Hdisk).
  rewrite cursor_execute_attach by reflexivity.
  cbn [fresh_conn conn_work].
  destruct (engine_execute P d list_tables_sql []) as [e | [d1 cur]] eqn:Hrun.
  { rewrite conn_rollback_attach by reflexivity.
    destruct (disk _ _); intro H; discriminate H. }
  assert (Hd1 : d1 = d)
    by exact (Hselect d " name FROM sqlite_master WHERE type='table'" [] d1 cur
                Hrun).
  subst d1.
  rewrite (Hmaster d d cur Hrun), comprehension_names.
  unfold backup_tables.
  destruct (backup_tables_loop d (length (conns w)) (table_names P d) []
              (log (EvExecute list_tables_sql []) (log (EvConnect db_path) w))
              (with_work (fresh_conn db_path d) d))
    as (b' & c' & r & Hloop & Hlen & Htables); auto.
  rewrite Hloop.
  destruct r as [e | ts].
  - rewrite conn_rollback_attach by exact Hlen.
    destruct (disk b' (conn_path c')); intro H; discriminate H.
  - rewrite conn_commit_attach by exact Hlen.
    cbn [fst]. intros [= <-].
    now rewrite (Htables ts eq_refl).
Qed.

(** What a [try] suite of [backup_database] that returns has done. *)
Lemma backup_database_try_success (w w' : World P) (db_path : string)
    (backup_path : option string) (d : database P) (v : pyval) :
  disk w db_path = Content d ->
  Forall (fun name => bare_name P name = true) (table_names P d) ->
  NoDup (table_names P d) ->
  backup_database_try P db_path backup_path w = (inr v, w') ->
  exists file ts ts2,
    artifacts w' file
      = Some (Json (backup_value P ts db_path (snapshot_tables P d))) /\
    v = PyDict [("success", PyBool true);
                ("backup_path", PyStr file);
                ("source_database", PyStr db_path);
                ("tables_backed_up", PyInt (len (snapshot_tables P d)));
                ("total_rows",
                  PyInt (sum (map (fun name => len (table_rows P d name))
                                (table_names P d))));
                ("timestamp", PyStr (isoformat P ts2))].
Proof.
  intros Hdisk Hbare Hnodup.
  unfold backup_database_try.
  unfold bind at 1.
  assert (Hpath : exists file w1,
             default_backup_path P backup_path w = (inr file, w1) /\
             disk w1 db_path = Content d).
  { unfold default_backup_path.
    destruct (nonempty_text backup_path) as [file |].
    - exists file, w. split; [reflexivity | exact Hdisk].
    - eexists _, _. split; [reflexivity | exact Hdisk]. }
  destruct Hpath as (file & w1 & -> & Hdisk1).
  unfold bind at 1. cbn [now].
  unfold bind at 1.
  match goal with
  | |- context [with_connection P db_path ?body (tick w1)] =>
      pose proof (backup_connection_tables (tick w1) db_path d) as Htables;
      destruct (with_connection P db_path body (tick w1))
        as [[e | tables] w3] eqn:Hwith
  end; [intro H; discriminate H |].
  specialize (Htables tables Hdisk1 Hbare Hnodup eq_refl). subst tables.
  unfold bind at 1. unfold write_json.
  destruct (write_fault w3 file); [intro H; discriminate H |].
  destruct (json_serializable
              (backup_value P (clock w1) db_path (snapshot_tables P d)));
    [| intro H; discriminate H].
  unfold bind at 1.
  assert (Hvalues : dict_values (snapshot_tables P d)
                    = map (table_entry P d) (table_names P d))
    by (unfold snapshot_tables, dict_values; now rewrite map_map).
  rewrite Hvalues, sum_row_counts_entries.
  unfold bind at 1. cbn [now ret].
  intros [= <- <-].
  exists file, (clock w1). eexists.
  split; [| reflexivity].
  cbn [tick log set_artifact artifacts]. now rewrite String.eqb_refl.
Qed.

End Backups.




(* ================================================================= *)
(** ** Steps of a [with] block, for any relation they keep *)

Section Keeping.

Variable P : Platform.
Variable R : World P -> Conn P -> World P -> Conn P -> Prop.

Hypothesis R_refl : forall b c, R b c b c.
Hypothesis R_trans :
  forall b1 c1 b2 c2 b3 c3, R b1 c1 b2 c2 -> R b2 c2 b3 c3 -> R b1 c1 b3 c3.

Lemma keeps_ret (n : nat) {A : Type} (a : A) : keeps R n (@ret P A a).
Proof.
  intros b c _. exists b, c, (inr a). repeat split; auto.
Qed.

Lemma keeps_raise (n : nat) {A : Type} (e : exn) : keeps R n (@raise P A e).
Proof.
  intros b c _. exists b, c, (inl e). repeat split; auto.
Qed.

Lemma keeps_bind (n : nat) {A B : Type} (m : M P A) (k : A -> M P B) :
  keeps R n m -> (forall a, keeps R n (k a)) -> keeps R n (bind m k).
Proof.
  intros Hm Hk b c Hlen.
  destruct (Hm b c Hlen) as (b1 & c1 & r & Heq & Hconns & Hstep).
  unfold bind. rewrite Heq.
  destruct r as [e | a].
  - exists b1, c1, (inl e). repeat split; auto.
  - assert (Hlen1 : length (conns b1) = n) by now rewrite Hconns.
    destruct (Hk a b1 c1 Hlen1) as (b2 & c2 & r2 & Heq2 & Hconns2 & Hstep2).
    exists b2, c2, r2. repeat split.
    + exact Heq2.
    + congruence.
    + eapply R_trans; eassumption.
Qed.

Lemma keeps_for_each (n : nat) {A S : Type} (l : list A)
    (body : A -> S -> M P S) :
  (forall x s, keeps R n (body x s)) -> forall s, keeps R n (for_each P l s body).
Proof.
  intro Hbody.
  induction l as [| x l IH]; intro s; cbn [for_each].
  - apply keeps_ret.
  - apply keeps_bind; [apply Hbody | intro s'; apply IH].
Qed.

Lemma keeps_comprehension (n : nat) {A B : Type} (f : A -> M P B) (l : list A) :
  (forall x, keeps R n (f x)) -> keeps R n (comprehension P f l).
Proof.
  intro Hf.
  induction l as [| x l IH]; cbn [comprehension].
  - apply keeps_ret.
  - apply keeps_bind; [apply Hf | intro y].
    apply keeps_bind; [exact IH | intro ys; apply keeps_ret].
Qed.

Lemma keeps_row_index (n : nat) (r : Row) (i : nat) : keeps R n (row_index P r i).
Proof.
  unfold row_index.
  destruct (nth_error r i) as [[k v] |]; [apply keeps_ret | apply keeps_raise].
Qed.

Lemma keeps_fetchone_0 (n : nat) (cur : Cursor) : keeps R n (fetchone_0 P cur).
Proof.
  unfold fetchone_0.
  destruct (cur_rows cur); [apply keeps_raise | apply keeps_row_index].
Qed.

Lemma keeps_column_info (n : nat) (col : Row) : keeps R n (column_info P col).
Proof.
  unfold column_info.
  repeat (apply keeps_bind; [apply keeps_row_index | intro]).
  apply keeps_ret.
Qed.

(** The two ways out of a [with] block on a file that opens: the body
    returned and the exit committed, or the body raised and the exit
    rolled back. *)
Lemma with_connection_run {A : Type} (db_path : string) (body : nat -> M P A)
    (w : World P) (d : database P) :
  (forall n, keeps R n (body n)) ->
  disk w db_path = Content d ->
  exists b1 c1,
    conns b1 = conns w /\
    R (log (EvConnect db_path) w) (fresh_conn db_path d) b1 c1 /\
    ((exists a,
         with_connection P db_path body w
         = (inr a,
            attach
              (log EvCommit
                 (set_disk (conn_path c1) (Content (conn_work c1)) b1))
              c1)) \/
     (exists e,
         with_connection P db_path body w
         = (inl e,
            attach (log EvRollback b1)
              match disk b1 (conn_path c1) with
              | Content d1 => with_work c1 d1
              | Unopenable _ => c1
              end))).
Proof.
  intros Hbody Hdisk.
  unfold with_connection, bind.
  rewrite (get_db_connection_content P w db_path d Hdisk).
  destruct (Hbody (length (conns w)) (log (EvConnect db_path) w)
              (fresh_conn db_path d) eq_refl)
    as (b1 & c1 & r & Heq & Hconns & Hstep).
  rewrite Heq.
  assert (Hlen : length (conns b1) = length (conns w)) by now rewrite Hconns.
  exists b1, c1. split; [exact Hconns | split; [exact Hstep |]].
  destruct r as [e | a].
  - right. exists e.
    rewrite (conn_rollback_attach P b1 c1 _ Hlen).
    destruct (disk b1 (conn_path c1)); reflexivity.
  - left. exists a.
    rewrite (conn_commit_attach P b1 c1 _ Hlen). reflexivity.
Qed.

End Keeping.

(* ================================================================= *)
(** ** What a call leaves alone *)

Section Framing.

Variable P : Platform.

Lemma frame_rel_refl (b : World P) (c : Conn P) : frame_rel b c b c.
Proof. repeat split. Qed.

Lemma frame_rel_trans (b1 : World P) (c1 : Conn P) (b2 : World P) (c2 : Conn P)
    (b3 : World P) (c3 : Conn P) :
  frame_rel b1 c1 b2 c2 -> frame_rel b2 c2 b3 c3 -> frame_rel b1 c1 b3 c3.
Proof.
  intros (Hp1 & Hf1 & Hd1 & Ha1 & Hw1) (Hp2 & Hf2 & Hd2 & Ha2 & Hw2).
  repeat split.
  - congruence.
  - congruence.
  - intros p Hp. rewrite Hd2, Hd1; auto. now rewrite Hp1.
  - intro p. now rewrite Ha2.
  - intro p. now rewrite Hw2.
Qed.

Lemma frames_cursor_execute (n : nat) (stmt : string) (params : list pyval) :
  keeps frame_rel n (cursor_execute P n stmt params).
Proof.
  intros b c Hlen.
  rewrite (cursor_execute_attach P b c n stmt params Hlen).
  destruct (engine_execute P (conn_work c) stmt params) as [e | [d' cur]].
  - exists (log (EvExecute stmt params) b), c, (inl e). repeat split.
  - exists (log (EvExecute stmt params) b), (with_work c d'), (inr cur).
    repeat split.
Qed.

Lemma frames_execute_with_optional_params (n : nat) (query : string)
    (params : option (list pyval)) :
  keeps frame_rel n (execute_with_optional_params P n query params).
Proof.
  destruct params as [[| p ps] |]; apply frames_cursor_execute.
Qed.

Lemma frames_conn_commit (n : nat) : keeps frame_rel n (conn_commit P n).
Proof.
  intros b c Hlen.
  rewrite (conn_commit_attach P b c n Hlen).
  exists (log EvCommit (set_disk (conn_path c) (Content (conn_work c)) b)), c,
    (inr tt).
  repeat split.
  intros p Hp. cbn [log set_disk disk].
  destruct (String.eqb_spec p (conn_path c)); [contradiction | reflexivity].
Qed.

Lemma frames_now (n : nat) : keeps frame_rel n (now P).
Proof.
  intros b c _. rewrite now_attach.
  exists (tick b), c, (inr (clock b)). repeat split.
Qed.

Lemma with_connection_frame {A : Type} (db_path : string) (body : nat -> M P A)
    (w : World P) :
  (forall n, keeps frame_rel n (body n)) ->
  (forall p, p <> db_path ->
             disk (snd (with_connection P db_path body w)) p = disk w p) /\
  (forall p, artifacts (snd (with_connection P db_path body w)) p
             = artifacts w p) /\
  (forall p, write_fault (snd (with_connection P db_path body w)) p
             = write_fault w p) /\
  match disk w db_path with
  | Content _ =>
      exists c,
        conns (snd (with_connection P db_path body w)) = (conns w ++ [c])%list /\
        conn_path c = db_path /\
        conn_closed c = false
  | Unopenable _ => conns (snd (with_connection P db_path body w)) = conns w
  end.
Proof.
  intro Hbody.
  destruct (disk w db_path) as [msg | d] eqn:Hdisk.
  - unfold with_connection, bind.
    rewrite (get_db_connection_unopenable P w db_path msg Hdisk).
    repeat split.
  - destruct (with_connection_run P frame_rel db_path body w d Hbody Hdisk)
      as (b1 & c1 & Hconns & (Hp & Hf & Hd & Ha & Hw) & [[a Hrun] | [e Hrun]]);
      rewrite Hrun; cbn [snd fresh_conn conn_path conn_closed] in *.
    + repeat split.
      * intros p Hne. cbn [attach set_conns log set_disk disk].
        rewrite Hp.
        destruct (String.eqb_spec p db_path); [contradiction |].
        now apply Hd.
      * intro p. cbn [attach set_conns log set_disk artifacts]. apply Ha.
      * intro p. cbn [attach set_conns log set_disk write_fault]. apply Hw.
      * exists c1. cbn [attach set_conns log set_disk conns].
        rewrite Hconns. repeat split; assumption.
    + repeat split.
      * intros p Hne. cbn [attach set_conns log disk]. now apply Hd.
      * intro p. cbn [attach set_conns log artifacts]. apply Ha.
      * intro p. cbn [attach set_conns log write_fault]. apply Hw.
      * eexists. cbn [attach set_conns log conns]. rewrite Hconns.
        split; [reflexivity |].
        destruct (disk b1 (conn_path c1)); cbn [with_work conn_path conn_closed];
          split; assumption.
Qed.

Lemma frames_backup_tables (n : nat) (tables : list pyval) :
  keeps frame_rel n (backup_tables P n tables).
Proof.
  unfold backup_tables.
  apply (keeps_for_each P frame_rel frame_rel_refl frame_rel_trans).
  intros table acc.
  apply (keeps_bind P frame_rel frame_rel_trans);
    [apply frames_cursor_execute | intro].
  apply (keeps_ret P frame_rel frame_rel_refl).
Qed.

End Framing.

(* ================================================================= *)
(** * Further properties of the operations *)


Ltac frame_steps P :=
  repeat first
    [ apply (keeps_ret P frame_rel (frame_rel_refl P))
    | apply frames_cursor_execute
    | apply frames_execute_with_optional_params
    | apply frames_conn_commit
    | apply frames_now
    | apply frames_backup_tables
    | apply (keeps_row_index P frame_rel (frame_rel_refl P))
    | apply (keeps_fetchone_0 P frame_rel (frame_rel_refl P))
    | apply (keeps_column_info P frame_rel (frame_rel_refl P)
               (frame_rel_trans P))
    | apply (keeps_comprehension P frame_rel (frame_rel_refl P)
               (frame_rel_trans P)); intro
    | apply (keeps_for_each P frame_rel (frame_rel_refl P)
               (frame_rel_trans P)); intros
    | apply (keeps_bind P frame_rel (frame_rel_trans P)); [| intro] ].

Section CallFrames.

Variable P : Platform.

Lemma default_backup_path_run (backup_path : option string) (w : World P) :
  default_backup_path P backup_path w
  = (inr (chosen_backup_path P backup_path w),
     match nonempty_text backup_path with
     | Some _ => w
     | None => tick w
     end).
Proof.
  unfold default_backup_path, chosen_backup_path.
  destruct (nonempty_text backup_path); reflexivity.
Qed.

Lemma sum_row_counts_world (entries : list pyval) (w : World P) :
  snd (sum_row_counts P entries w) = w.
Proof.
  induction entries as [| entry rest IH]; cbn [sum_row_counts].
  - reflexivity.
  - destruct (field entry "row_count") as [[] |]; try reflexivity.
    unfold bind.
    destruct (sum_row_counts P rest w) as [[e | total] w1]; cbn [snd] in *;
      exact IH.
Qed.

(** What the [try] suite of a call does to the handles, to the other
    database files and to the files written. *)
Lemma try_suite_frame (r : Request) (w : World P) :
  call_frame r w (snd (try_suite P r w)).
Proof.
  destruct r; cbn [try_suite];
    try (unfold call_frame, execute_query_try, execute_modification_try,
           create_table_try, get_schema_try, insert_data_try,
           get_table_data_try;
         cbv zeta; cbn [db_path_of may_write];
         match goal with
         | |- context [with_connection P ?path ?body w] =>
             destruct (with_connection_frame P path body w) as (Hd & Ha & _ & Hc);
             [ intro n; frame_steps P
             | split; [exact Hd | split; [intros p _; apply Ha | exact Hc]] ]
         end).
  unfold call_frame. cbn [db_path_of may_write].
  remember (snd (backup_database_try P db_path backup_path w)) as w' eqn:Hw'.
  unfold backup_database_try in Hw'.
  unfold bind at 1 in Hw'. rewrite default_backup_path_run in Hw'.
  set (file := chosen_backup_path P backup_path w) in *.
  set (w1 := match nonempty_text backup_path with Some _ => w | None => tick w end)
    in *.
  assert (Hw1 : conns w1 = conns w /\ (forall p, disk w1 p = disk w p)
                /\ (forall p, artifacts w1 p = artifacts w p)).
  { subst w1. destruct (nonempty_text backup_path); repeat split. }
  destruct Hw1 as (Hc1 & Hd1 & Ha1).
  unfold bind at 1 in Hw'. cbn [now] in Hw'.
  unfold bind at 1 in Hw'.
  match type of Hw' with
  | context [with_connection P db_path ?body (tick w1)] =>
      destruct (with_connection_frame P db_path body (tick w1))
        as (Hd & Ha & _ & Hc); [intro n; frame_steps P |];
      destruct (with_connection P db_path body (tick w1))
        as [[e | tables] w3]
  end; cbn [snd tick disk conns artifacts] in *.
  { subst w'.
    split; [intros p Hp; now rewrite Hd, Hd1 |].
    split; [intros p _; now rewrite Ha, Ha1 |].
    rewrite Hd1 in Hc. rewrite Hc1 in Hc. exact Hc. }
  assert (Hpost :
            forall w4,
              conns w4 = conns w3 ->
              (forall p, disk w4 p = disk w3 p) ->
              (forall p, p <> file -> artifacts w4 p = artifacts w3 p) ->
              (forall p, p <> db_path -> disk w4 p = disk w p) /\
              (forall p, p <> file -> artifacts w4 p = artifacts w p) /\
              match disk w db_path with
              | Unopenable _ => conns w4 = conns w
              | Content _ =>
                  exists c,
                    conns w4 = (conns w ++ [c])%list /\
                    conn_path c = db_path /\ conn_closed c = false
              end).
  { intros w4 Hc4 Hd4 Ha4.
    split; [intros p Hp; now rewrite Hd4, Hd, Hd1 |].
    split; [intros p Hp; now rewrite Ha4, Ha, Ha1 |].
    rewrite Hc4. rewrite Hd1 in Hc. rewrite Hc1 in Hc. exact Hc. }
  unfold bind at 1 in Hw'. unfold write_json in Hw'.
  destruct (write_fault w3 file); cbn [snd] in Hw'.
  { subst w'. apply Hpost; auto. }
  destruct (json_serializable (backup_value P (clock w1) db_path tables));
    cbn [snd] in Hw'.
  2:{ subst w'. apply Hpost; try reflexivity.
      intros p Hp. cbn [log set_artifact artifacts].
      destruct (String.eqb_spec p file); [contradiction | reflexivity]. }
  unfold bind at 1 in Hw'.
  match type of Hw' with
  | context [sum_row_counts P ?es ?w4] =>
      pose proof (sum_row_counts_world es w4) as Hsum;
      destruct (sum_row_counts P es w4) as [[e | total] w5]
  end; cbn [snd] in *; subst w5.
  - subst w'. apply Hpost; try reflexivity.
    intros p Hp. cbn [log set_artifact artifacts].
    destruct (String.eqb_spec p file); [contradiction | reflexivity].
  - unfold bind in Hw'. cbn [now ret snd] in Hw'. subst w'.
    apply Hpost; try reflexivity.
    intros p Hp. cbn [tick log set_artifact artifacts].
    destruct (String.eqb_spec p file); [contradiction | reflexivity].
Qed.

Lemma call_keeps_frame (r : Request) (w : World P) :
  call_frame r w (snd (call P r w)).
Proof.
  rewrite call_world. apply try_suite_frame.
Qed.

End CallFrames.





(** X3.  A call on a database file that opens opens exactly one handle,
    on that file, and leaves it open. *)
Theorem call_opens_one_connection (P : Platform) (r : Request) (w : World P)
    (d : database P) :
  disk w (db_path_of r) = Content d ->
  exists c,
    conns (snd (call P r w)) = (conns w ++ [c])%list /\
    conn_path c = db_path_of r /\
    conn_closed c = false.
Proof.
  intro Hdisk. destruct (call_keeps_frame P r w) as (_ & _ & Hc).
  rewrite Hdisk in Hc. exact Hc.
Qed.

Lemma call_opens_one_connection_witness :
  exists c,
    conns (snd (call MiniSqlite.platform (GetSchema "db") two_databases))
      = ([] ++ [c])%list /\
    conn_path c = "db" /\
    conn_closed c = false.
Proof.
  exact (call_opens_one_connection MiniSqlite.platform (GetSchema "db")
           two_databases MiniSqlite.sample_db eq_refl).
Defined.

(** X4.  On a database file that cannot be opened, every operation returns
    its failure result for the engine's fault, with the engine's message,
    and does nothing else: no handle, no engine call, no database file
    changed, no file written. *)
Theorem unopenable_database_fails (P : Platform) (r : Request) (w : World P)
    (msg : string) :
  disk w (db_path_of r) = Unopenable msg ->
  fst (call P r w) = inr (failure_result r (Exn Sqlite3Error msg)) /\
  conns (snd (call P r w)) = conns w /\
  events (snd (call P r w)) = events w /\
  (forall p, disk (snd (call P r w)) p = disk w p) /\
  (forall p, artifacts (snd (call P r w)) p = artifacts w p).
Proof.
  intro Hdisk.
  assert (Hrun : exists w',
             try_suite P r w = (inl (Exn Sqlite3Error msg), w') /\
             conns w' = conns w /\ events w' = events w /\
             (forall p, disk w' p = disk w p) /\
             (forall p, artifacts w' p = artifacts w p)).
  { destruct r; cbn [try_suite db_path_of] in *;
      unfold execute_query_try, execute_modification_try, create_table_try,
        get_schema_try, insert_data_try, get_table_data_try,
        backup_database_try;
      cbv zeta.
    1-6: exists w; unfold with_connection, bind;
         rewrite (get_db_connection_unopenable P w _ msg Hdisk);
         repeat split.
    unfold bind at 1. rewrite default_backup_path_run.
    unfold bind at 1. cbn [now]. unfold bind at 1.
    unfold with_connection, bind at 1.
    rewrite (get_db_connection_unopenable P _ db_path msg)
      by (destruct (nonempty_text backup_path); exact Hdisk).
    eexists. split; [reflexivity |].
    destruct (nonempty_text backup_path); repeat split. }
  destruct Hrun as (w' & Hrun & Hc & He & Hd & Ha).
  rewrite call_world, call_result, Hrun. cbn [fst snd].
  repeat split; assumption.
Qed.

Lemma unopenable_database_fails_witness :
  fst (call MiniSqlite.platform (InsertData "t" [("id", PyInt 2)] "/tmp")
         two_databases)
  = inr (failure_result (InsertData "t" [("id", PyInt 2)] "/tmp")
           (Exn Sqlite3Error "unable to open database file")) /\
  conns (snd (call MiniSqlite.platform (InsertData "t" [("id", PyInt 2)] "/tmp")
                two_databases)) = conns two_databases /\
  events (snd (call MiniSqlite.platform (InsertData "t" [("id", PyInt 2)] "/tmp")
                 two_databases)) = events two_databases /\
  (forall p,
      disk (snd (call MiniSqlite.platform
                   (InsertData "t" [("id", PyInt 2)] "/tmp") two_databases)) p
      = disk two_databases p) /\
  (forall p,
      artifacts (snd (call MiniSqlite.platform
                        (InsertData "t" [("id", PyInt 2)] "/tmp")
                        two_databases)) p
      = artifacts two_databases p).
Proof.
  exact (unopenable_database_fails MiniSqlite.platform
           (InsertData "t" [("id", PyInt 2)] "/tmp") two_databases
           "unable to open database file" eq_refl).
Defined.

(* ================================================================= *)
(** ** The operations that only read *)

Section Reading.

Variable P : Platform.

Lemma read_rel_refl (b : World P) (c : Conn P) : read_rel b c b c.
Proof. repeat split. Qed.

Lemma read_rel_trans (b1 : World P) (c1 : Conn P) (b2 : World P) (c2 : Conn P)
    (b3 : World P) (c3 : Conn P) :
  read_rel b1 c1 b2 c2 -> read_rel b2 c2 b3 c3 -> read_rel b1 c1 b3 c3.
Proof.
  intros (Hp1 & Hw1 & Hd1) (Hp2 & Hw2 & Hd2).
  split; [congruence | split; [congruence |]].
  intro p. now rewrite Hd2.
Qed.

Lemma reads_cursor_execute (n : nat) (stmt : string) (params : list pyval) :
  reads_only P stmt -> keeps read_rel n (cursor_execute P n stmt params).
Proof.
  intros Hro b c Hlen.
  rewrite (cursor_execute_attach P b c n stmt params Hlen).
  destruct (engine_execute P (conn_work c) stmt params) as [e | [d' cur]] eqn:Hrun.
  - exists (log (EvExecute stmt params) b), c, (inl e). repeat split.
  - exists (log (EvExecute stmt params) b), (with_work c d'), (inr cur).
    repeat split.
    cbn [with_work conn_work]. exact (Hro _ _ _ _ Hrun).
Qed.

Lemma reads_now (n : nat) : keeps read_rel n (now P).
Proof.
  intros b c _. rewrite now_attach.
  exists (tick b), c, (inr (clock b)). repeat split.
Qed.

Lemma select_reads_only (rest : string) :
  select_readonly P -> reads_only P ("SELECT" ++ rest).
Proof.
  intros Hro d params d' cur Hrun. exact (Hro d rest params d' cur Hrun).
Qed.

Lemma count_query_select (table_name : string) (where_clause : option string) :
  exists rest, count_query table_name where_clause = "SELECT" ++ rest.
Proof.
  unfold count_query.
  destruct (nonempty_text where_clause); eexists; reflexivity.
Qed.

(** A [with] block whose body only reads leaves every database file as it
    was, on either way out. *)
Lemma with_connection_read {A : Type} (db_path : string) (body : nat -> M P A)
    (w : World P) (p : string) :
  (forall n, keeps read_rel n (body n)) ->
  disk (snd (with_connection P db_path body w)) p = disk w p.
Proof.
  intro Hbody.
  destruct (disk w db_path) as [msg | d] eqn:Hdisk.
  - unfold with_connection, bind.
    now rewrite (get_db_connection_unopenable P w db_path msg Hdisk).
  - destruct (with_connection_run P read_rel db_path body w d Hbody Hdisk)
      as (b1 & c1 & Hconns & (Hp & Hw & Hd) & [[a Hrun] | [e Hrun]]);
      rewrite Hrun; cbn [snd fresh_conn conn_path conn_work] in *.
    + cbn [attach set_conns log set_disk disk].
      rewrite Hp, Hw, Hd. cbn [log disk].
      destruct (String.eqb_spec p db_path) as [-> | _];
        [now rewrite Hdisk | reflexivity].
    + cbn [attach set_conns log disk]. now rewrite Hd.
Qed.

Lemma bind_keeps_disk {A B : Type} (m : M P A) (k : A -> M P B) :
  (forall w p, disk (snd (m w)) p = disk w p) ->
  (forall a w p, disk (snd (k a w)) p = disk w p) ->
  forall w p, disk (snd (bind m k w)) p = disk w p.
Proof.
  intros Hm Hk w p. unfold bind.
  specialize (Hm w p).
  destruct (m w) as [[e | a] w1]; cbn [snd] in *.
  - exact Hm.
  - now rewrite Hk.
Qed.

Lemma quiet_keeps_disk {A : Type} (m : M P A) :
  quiet m -> forall w p, disk (snd (m w)) p = disk w p.
Proof.
  intros Hq w p. destruct (Hq w) as (_ & Hd & _). apply Hd.
Qed.

Ltac read_steps Hselect :=
  repeat first
    [ apply (keeps_ret P read_rel read_rel_refl)
    | apply reads_now
    | apply (keeps_row_index P read_rel read_rel_refl)
    | apply (keeps_fetchone_0 P read_rel read_rel_refl)
    | apply (keeps_column_info P read_rel read_rel_refl read_rel_trans)
    | apply (keeps_comprehension P read_rel read_rel_refl read_rel_trans); intro
    | apply (keeps_for_each P read_rel read_rel_refl read_rel_trans); intros
    | apply (keeps_bind P read_rel read_rel_trans); [| intro] ].

Lemma get_table_data_try_reads (table_name : string) (limit offset : Z)
    (where_clause : option string) (db_path : string) (w : World P) (p : string) :
  select_readonly P ->
  disk (snd (get_table_data_try P table_name limit offset where_clause db_path w))
    p = disk w p.
Proof.
  intro Hselect.
  unfold get_table_data_try. cbv zeta.
  apply with_connection_read. intro n.
  destruct (page_query_select table_name limit offset where_clause)
    as [rest1 ->].
  destruct (count_query_select table_name where_clause) as [rest2 ->].
  apply (keeps_bind P read_rel read_rel_trans);
    [apply reads_cursor_execute, select_reads_only, Hselect | intro].
  apply (keeps_bind P read_rel read_rel_trans);
    [apply reads_cursor_execute, select_reads_only, Hselect | intro].
  read_steps Hselect.
Qed.

Lemma get_schema_try_reads (db_path : string) (w : World P) (p : string) :
  select_readonly P ->
  table_info_readonly P ->
  disk (snd (get_schema_try P db_path w)) p = disk w p.
Proof.
  intros Hselect Hinfo.
  unfold get_schema_try.
  apply with_connection_read. intro n.
  apply (keeps_bind P read_rel read_rel_trans);
    [apply reads_cursor_execute;
     apply (select_reads_only " name FROM sqlite_master WHERE type='table'"),
       Hselect
    | intro].
  apply (keeps_bind P read_rel read_rel_trans); [read_steps Hselect | intro].
  apply (keeps_bind P read_rel read_rel_trans); [read_steps Hselect | intro].
  apply (keeps_bind P read_rel read_rel_trans);
    [| intro; apply (keeps_ret P read_rel read_rel_refl)].
  apply (keeps_for_each P read_rel read_rel_refl read_rel_trans).
  intros table acc.
  apply (keeps_bind P read_rel read_rel_trans);
    [apply reads_cursor_execute, Hinfo | intro].
  read_steps Hselect.
Qed.

Lemma backup_database_try_reads (db_path : string) (backup_path : option string)
    (w : World P) (p : string) :
  select_readonly P ->
  disk (snd (backup_database_try P db_path backup_path w)) p = disk w p.
Proof.
  intro Hselect. revert w p.
  unfold backup_database_try.
  apply bind_keeps_disk;
    [apply quiet_keeps_disk, quiet_default_backup_path | intro file].
  apply bind_keeps_disk; [apply quiet_keeps_disk, quiet_now | intro ts].
  apply bind_keeps_disk.
  - intros w p. apply with_connection_read. intro n.
    apply (keeps_bind P read_rel read_rel_trans);
      [apply reads_cursor_execute;
       apply (select_reads_only " name FROM sqlite_master WHERE type='table'"),
         Hselect
      | intro].
    apply (keeps_bind P read_rel read_rel_trans); [read_steps Hselect | intro].
    unfold backup_tables.
    apply (keeps_for_each P read_rel read_rel_refl read_rel_trans).
    intros table acc.
    apply (keeps_bind P read_rel read_rel_trans);
      [apply reads_cursor_execute;
       apply (select_reads_only (" * FROM " ++ py_str P table)), Hselect
      | intro].
    read_steps Hselect.
  - intro tables.
    apply bind_keeps_disk; [apply quiet_keeps_disk, quiet_write_json | intro].
    apply bind_keeps_disk;
      [apply quiet_keeps_disk, quiet_sum_row_counts | intro].
    apply bind_keeps_disk; [apply quiet_keeps_disk, quiet_now | intro].
    apply quiet_keeps_disk, quiet_ret.
Qed.

End Reading.

Lemma mini_table_info_readonly : table_info_readonly MiniSqlite.platform.
Proof.
  intros rest d params d' cur.
  cbn [engine_execute MiniSqlite.platform].
  unfold MiniSqlite.execute.
  change (strip_prefix "INSERT INTO " ("PRAGMA table_info(" ++ rest))
    with (@None string).
  change (strip_prefix "SELECT " ("PRAGMA table_info(" ++ rest))
    with (@None string).
  change (strip_prefix "PRAGMA table_info(" ("PRAGMA table_info(" ++ rest))
    with (Some rest).
  destruct params as [| p ps]; [| discriminate].
  destruct (drop_last ")" rest); [| discriminate].
  intros [= <- _]. reflexivity.
Qed.

(** X5.  [get_table_data] changes no database file, whatever the table
    name and the [where_clause], on an engine that runs statements
    beginning with [SELECT] without changing anything: both its statements
    begin with [SELECT]. *)
Theorem get_table_data_reads_only (P : Platform) (w : World P)
    (table_name : string) (limit offset : Z) (where_clause : option string)
    (db_path : string) (p : string) :
  select_readonly P ->
  disk (snd (get_table_data P table_name limit offset where_clause db_path w)) p
  = disk w p.
Proof.
  intro Hselect.
  change (get_table_data P table_name limit offset where_clause db_path)
    with (call P (GetTableData table_name limit offset where_clause db_path)).
  rewrite call_world. cbn [try_suite].
  now apply get_table_data_try_reads.
Qed.

Lemma get_table_data_reads_only_witness :
  disk (snd (get_table_data MiniSqlite.platform "t" 10%Z 0%Z (Some "id = 1") "db"
               two_databases)) "db"
  = disk two_databases "db".
Proof.
  exact (get_table_data_reads_only MiniSqlite.platform two_databases "t" 10%Z 0%Z
           (Some "id = 1") "db" "db" mini_select_readonly).
Defined.



(** X7.  [get_schema] changes no database file, on an engine that runs
    statements beginning with [SELECT] and [PRAGMA table_info] without
    changing anything. *)
Theorem get_schema_reads_only (P : Platform) (w : World P) (db_path : string)
    (p : string) :
  select_readonly P ->
  table_info_readonly P ->
  disk (snd (get_schema P db_path w)) p = disk w p.
Proof.
  intros Hselect Hinfo.
  change (get_schema P db_path) with (call P (GetSchema db_path)).
  rewrite call_world. cbn [try_suite].
  now apply get_schema_try_reads.
Qed.

Lemma get_schema_reads_only_witness :
  disk (snd (get_schema MiniSqlite.platform "db" two_databases)) "db"
  = disk two_databases "db".
Proof.
  exact (get_schema_reads_only MiniSqlite.platform two_databases "db" "db"
           mini_select_readonly mini_table_info_readonly).
Defined.

(* ================================================================= *)
(** ** Results and effects of the single-statement operations *)

Lemma dict_items_distinct {V : Type} (items acc : list (string * V)) :
  NoDup (dict_keys acc ++ dict_keys items)%list ->
  fold_left (fun d kv => dict_set d (fst kv) (snd kv)) items acc
  = (acc ++ items)%list.
Proof.
  revert acc.
  induction items as [| [k v] items IH]; intros acc Hnodup; cbn [fold_left].
  - now rewrite app_nil_r.
  - cbn [fst snd dict_keys map] in *.
    rewrite dict_set_new.
    + rewrite IH.
      * now rewrite <- app_assoc.
      * unfold dict_keys in *. rewrite map_app, <- app_assoc. exact Hnodup.
    + apply NoDup_remove_2 in Hnodup.
      intro Hin. apply Hnodup. apply in_or_app. now left.
Qed.

Lemma dict_of_row_distinct (r : Row) :
  NoDup (map fst r) -> dict_of_row r = PyDict r.
Proof.
  intro Hnodup. unfold dict_of_row, dict_of_items.
  now rewrite dict_items_distinct.
Qed.

Lemma map_dict_of_row_distinct (rows : list Row) :
  Forall (fun r => NoDup (map fst r)) rows ->
  map dict_of_row rows = map PyDict rows.
Proof.
  induction 1 as [| r rows Hr _ IH]; cbn [map]; [reflexivity |].
  now rewrite IH, dict_of_row_distinct.
Qed.

Section SingleStatements.

Variable P : Platform.

Lemma insert_data_try_run (w : World P) (table_name : string)
    (data : list (string * pyval)) (db_path : string) (d : database P) :
  disk w db_path = Content d ->
  insert_data_try P table_name data db_path w =
  let sql := insert_sql table_name data in
  let values := dict_values data in
  match engine_execute P d sql values with
  | inl e => (inl e, rolled_back w db_path d sql values)
  | inr (d', cur) =>
      (inr (PyDict [("success", PyBool true);
                    ("table_name", PyStr table_name);
                    ("inserted_data", PyDict data);
                    ("row_id", cur_lastrowid cur);
                    ("timestamp", PyStr (isoformat P (clock w)))]),
       attach
         (log EvCommit
            (set_disk db_path (Content d')
               (tick
                  (log EvCommit
                     (set_disk db_path (Content d')
                        (log (EvExecute sql values)
                           (log (EvConnect db_path) w)))))))
         (with_work (fresh_conn db_path d) d'))
  end.
Proof.
  intro Hdisk.
  unfold insert_data_try, with_connection, bind.
  rewrite (get_db_connection_content P w db_path d Hdisk).
  rewrite cursor_execute_attach by reflexivity.
  cbn [fresh_conn conn_work].
  cbv zeta.
  destruct (engine_execute P d (insert_sql table_name data) (dict_values data))
    as [e | [d' cur]].
  - rewrite conn_rollback_attach by reflexivity.
    cbn [fresh_conn conn_path log disk]. rewrite Hdisk. reflexivity.
  - rewrite conn_commit_attach by reflexivity.
    rewrite now_attach.
    cbn [ret].
    rewrite conn_commit_attach by reflexivity.
    reflexivity.
Qed.

Lemma try_suite_unopenable_fails (r : Request) (w : World P) (msg : string) :
  disk w (db_path_of r) = Unopenable msg ->
  fst (try_suite P r w) = inl (Exn Sqlite3Error msg).
Proof.
  intro Hdisk.
  destruct r; cbn [try_suite db_path_of] in *;
    unfold execute_query_try, execute_modification_try, create_table_try,
      get_schema_try, insert_data_try, get_table_data_try, backup_database_try;
    cbv zeta.
  1-6: unfold with_connection, bind;
       now rewrite (get_db_connection_unopenable P w _ msg Hdisk).
  unfold bind at 1. rewrite default_backup_path_run.
  unfold bind at 1. cbn [now]. unfold bind at 1.
  unfold with_connection, bind at 1.
  rewrite (get_db_connection_unopenable P _ db_path msg)
    by (destruct (nonempty_text backup_path); exact Hdisk).
  reflexivity.
Qed.

End SingleStatements.



(** X9.  [insert_data] on a database file holding [d] passes one parameter
    per column, the values in the order of the columns.  When the engine
    runs the statement, the call commits the content it leaves and returns
    the data as given and the cursor's [lastrowid] as [row_id]; when the
    engine raises, the call rolls back, the file holds [d] as before, and
    the failure result echoes the table name and the data. *)
Theorem insert_data_commits (P : Platform) (w : World P) (table_name : string)
    (data : list (string * pyval)) (db_path : string) (d : database P) :
  disk w db_path = Content d ->
  let out := insert_data P table_name data db_path w in
  let sql := insert_sql table_name data in
  let values := dict_values data in
  combine (dict_keys data) values = data /\
  length values = length (dict_keys data) /\
  match engine_execute P d sql values with
  | inr (d', cur) =>
      fst out = inr (PyDict [("success", PyBool true);
                             ("table_name", PyStr table_name);
                             ("inserted_data", PyDict data);
                             ("row_id", cur_lastrowid cur);
                             ("timestamp", PyStr (isoformat P (clock w)))]) /\
      disk (snd out) db_path = Content d' /\
      events (snd out)
        = (events w ++ [EvConnect db_path; EvExecute sql values;
                        EvCommit; EvCommit])%list
  | inl e =>
      fst out = inr (failure_result (InsertData table_name data db_path) e) /\
      disk (snd out) db_path = Content d /\
      events (snd out)
        = (events w ++ [EvConnect db_path; EvExecute sql values;
                        EvRollback])%list
  end.
Proof.
  intros Hdisk out sql values. subst out sql values.
  split.
  { unfold dict_keys, dict_values.
    induction data as [| [k v] data IH]; cbn [map combine fst snd];
      [reflexivity | now rewrite IH]. }
  split.
  { unfold dict_keys, dict_values. now rewrite !length_map. }
  change (insert_data P table_name data db_path)
    with (call P (InsertData table_name data db_path)).
  rewrite call_world, call_result. cbn [try_suite].
  rewrite (insert_data_try_run P w table_name data db_path d Hdisk).
  cbv zeta. unfold rolled_back.
  destruct (engine_execute P d (insert_sql table_name data) (dict_values data))
    as [e | [d' cur]];
    cbn [fst snd attach set_conns log set_disk tick disk events].
  - repeat split; [exact Hdisk | now rewrite <- !app_assoc].
  - repeat split; [now rewrite String.eqb_refl | now rewrite <- !app_assoc].
Qed.

Lemma insert_data_commits_witness :
  let out :=
    insert_data MiniSqlite.platform "t" [("id", PyInt 2); ("name", PyStr "b")]
      "db" two_databases in
  let sql := insert_sql "t" [("id", PyInt 2); ("name", PyStr "b")] in
  let values := dict_values [("id", PyInt 2); ("name", PyStr "b")] in
  combine (dict_keys [("id", PyInt 2); ("name", PyStr "b")]) values
    = [("id", PyInt 2); ("name", PyStr "b")] /\
  length values = length (dict_keys [("id", PyInt 2); ("name", PyStr "b")]) /\
  fst out = inr (PyDict [("success", PyBool true);
                         ("table_name", PyStr "t");
                         ("inserted_data",
                           PyDict [("id", PyInt 2); ("name", PyStr "b")]);
                         ("row_id", PyInt 2);
                         ("timestamp", PyStr "T0")]) /\
  disk (snd out) "db"
    = @Content MiniSqlite.platform
        [{| MiniSqlite.t_name := "t";
            MiniSqlite.t_columns := [("id", "INTEGER"); ("name", "TEXT")];
            MiniSqlite.t_rows := [(1%Z, [PyInt 1; PyStr "a"]);
                                  (2%Z, [PyInt 2; PyStr "b"])] |}] /\
  events (snd out)
    = [EvConnect "db";
       EvExecute "INSERT INTO t (id, name) VALUES (?, ?)"
         [PyInt 2; PyStr "b"];
       EvCommit; EvCommit].
Proof.
  exact (insert_data_commits MiniSqlite.platform two_databases "t"
           [("id", PyInt 2); ("name", PyStr "b")] "db" MiniSqlite.sample_db
           eq_refl).
Defined.

(** X10.  [create_table] on a database file holding [d] leaves in the file
    the content the engine's run of the statement leaves, and [d] itself
    when the engine refuses the statement. *)
Theorem create_table_database_effect (P : Platform) (w : World P)
    (table_name : string) (columns : list (string * string)) (db_path : string)
    (d : database P) :
  disk w db_path = Content d ->
  disk (snd (create_table P table_name columns db_path w)) db_path
  = Content (content_after P d (create_sql table_name columns) []).
Proof.
  intro Hdisk.
  change (create_table P table_name columns db_path)
    with (call P (CreateTable table_name columns db_path)).
  rewrite call_world. cbn [try_suite].
  rewrite (create_table_try_run P w table_name columns db_path d Hdisk).
  cbv zeta. unfold content_after, rolled_back.
  destruct (engine_execute P d (create_sql table_name columns) [])
    as [e | [d' cur]];
    cbn [snd attach set_conns log set_disk tick disk].
  - exact Hdisk.
  - now rewrite String.eqb_refl.
Qed.

Lemma create_table_database_effect_witness :
  disk (snd (create_table MiniSqlite.platform "u" [("a", "INTEGER")] "db"
               two_databases)) "db"
  = Content (content_after MiniSqlite.platform MiniSqlite.sample_db
               (create_sql "u" [("a", "INTEGER")]) []).
Proof.
  exact (create_table_database_effect MiniSqlite.platform two_databases "u"
           [("a", "INTEGER")] "db" MiniSqlite.sample_db eq_refl).
Defined.



(* ================================================================= *)
(** ** What the results of [backup_database] and [get_schema] hold *)

Lemma dict_set_values {V : Type} (Q : V -> Prop) (acc : list (string * V))
    (k : string) (v : V) :
  Forall Q (dict_values acc) -> Q v -> Forall Q (dict_values (dict_set acc k v)).
Proof.
  intros Hacc Hv.
  induction acc as [| [k' v'] acc IH];
    cbn [dict_set dict_values map snd] in *.
  - constructor; [exact Hv | constructor].
  - inversion Hacc as [| ? ? Hv' Hrest]; subst.
    destruct (String.eqb k k'); cbn [map snd].
    + constructor; assumption.
    + constructor; [assumption | now apply IH].
Qed.

Lemma dict_set_length {V : Type} (acc : list (string * V)) (k : string) (v : V) :
  length (dict_set acc k v) <= S (length acc).
Proof.
  induction acc as [| [k' v'] acc IH]; cbn [dict_set length].
  - lia.
  - destruct (String.eqb k k'); cbn [length]; lia.
Qed.

Section Yielding.

Variable P : Platform.

Lemma yields_ret {A : Type} (Q : A -> Prop) (a : A) :
  Q a -> yields Q (@ret P A a).
Proof.
  intros Ha w v. cbn [ret fst]. now intros [= <-].
Qed.

Lemma yields_bind {A B : Type} (R : A -> Prop) (Q : B -> Prop) (m : M P A)
    (k : A -> M P B) :
  yields R m -> (forall a, R a -> yields Q (k a)) -> yields Q (bind m k).
Proof.
  intros Hm Hk w v. unfold bind.
  destruct (m w) as [[e | a] w1] eqn:Hrun.
  - intro H. discriminate H.
  - apply (Hk a). apply (Hm w). now rewrite Hrun.
Qed.

Lemma yields_anything {A : Type} (m : M P A) : yields (fun _ => True) m.
Proof.
  intros w v _. exact I.
Qed.

Lemma yields_then {A B : Type} (Q : B -> Prop) (m : M P A) (k : A -> M P B) :
  (forall a, yields Q (k a)) -> yields Q (bind m k).
Proof.
  intro Hk. apply (yields_bind (fun _ => True)); [apply yields_anything |].
  intros a _. apply Hk.
Qed.

Lemma yields_comprehension {A B : Type} (Q : B -> Prop) (f : A -> M P B)
    (l : list A) :
  (forall x, yields Q (f x)) ->
  yields (fun ys => Forall Q ys /\ length ys = length l) (comprehension P f l).
Proof.
  intro Hf.
  induction l as [| x rest IH]; cbn [comprehension].
  - apply yields_ret. split; [constructor | reflexivity].
  - apply (yields_bind Q); [apply Hf |].
    intros y Hy.
    apply (yields_bind (fun ys => Forall Q ys /\ length ys = length rest));
      [exact IH |].
    intros ys [Hys Hlen]. apply yields_ret.
    split; [now constructor | cbn [length]; now rewrite Hlen].
Qed.

(** A loop that stores one value of the kind [Q] per item. *)
Lemma yields_dict_loop {A : Type} (Q : pyval -> Prop) (l : list A)
    (body : A -> list (string * pyval) -> M P (list (string * pyval))) :
  (forall x acc,
      yields (fun acc' => exists k v, acc' = dict_set acc k v /\ Q v)
        (body x acc)) ->
  forall acc,
    Forall Q (dict_values acc) ->
    yields (fun r => Forall Q (dict_values r) /\
                     length r <= length acc + length l)
      (for_each P l acc body).
Proof.
  intro Hbody.
  induction l as [| x rest IH]; intros acc Hacc; cbn [for_each].
  - apply yields_ret. split; [exact Hacc | cbn [length]; lia].
  - eapply yields_bind; [apply Hbody |].
    intros acc' (k & v & -> & Hv) w r Hrun.
    destruct (IH (dict_set acc k v) (dict_set_values Q acc k v Hacc Hv) w r Hrun)
      as [Hr Hlen].
    split; [exact Hr |].
    pose proof (dict_set_length acc k v). cbn [length]. lia.
Qed.

Lemma yields_with_connection {A : Type} (Q : A -> Prop) (db_path : string)
    (body : nat -> M P A) :
  (forall n, yields Q (body n)) -> yields Q (with_connection P db_path body).
Proof.
  intros Hbody w v. unfold with_connection, bind.
  destruct (get_db_connection P db_path w) as [[e | n] w1];
    [intro H; discriminate H |].
  pose proof (Hbody n w1) as Hn.
  destruct (body n w1) as [[e | a] w2].
  - destruct (conn_rollback P n w2) as [[e' | u] w3]; intro H; discriminate H.
  - destruct (conn_commit P n w2) as [[e' | u] w3];
      [intro H; discriminate H |].
    cbn [fst]. intros [= <-]. now apply Hn.
Qed.

Lemma yields_backup_tables (n : nat) (tables : list pyval) :
  yields (fun r => Forall (counted_entry row_dict "data" "row_count")
                     (dict_values r))
    (backup_tables P n tables).
Proof.
  unfold backup_tables. intros w v Hv.
  refine (proj1 (yields_dict_loop (counted_entry row_dict "data" "row_count")
                   tables _ _ [] (Forall_nil _) w v Hv)).
  intros table acc. apply yields_then. intro cursor. apply yields_ret.
  eexists _, _. split; [reflexivity |].
  exists (map dict_of_row (cur_rows cursor)).
  split.
  - unfold len. now rewrite length_map.
  - apply Forall_forall. intros item Hitem.
    apply in_map_iff in Hitem. destruct Hitem as (r & <- & _). now exists r.
Qed.

Lemma yields_column_info (col : Row) :
  yields column_entry (column_info P col).
Proof.
  unfold column_info.
  do 5 (apply yields_then; intro).
  apply yields_ret. unfold column_entry.
  do 5 eexists. reflexivity.
Qed.

Lemma sum_row_counts_counted (Q : pyval -> Prop) (entries : list pyval)
    (w : World P) :
  Forall (counted_entry Q "data" "row_count") entries ->
  sum_row_counts P entries w
  = (inr (sum (map (stored_count "row_count") entries)), w).
Proof.
  induction 1 as [| entry rest (items & -> & _) _ IH]; cbn [sum_row_counts map].
  - reflexivity.
  - unfold stored_count at 1.
    cbn [field dict_get String.eqb Ascii.eqb Bool.eqb].
    unfold bind. rewrite IH. reflexivity.
Qed.

Lemma call_success (r : Request) (w : World P) (res : pyval) :
  fst (call P r w) = inr res ->
  field res "success" = Some (PyBool true) ->
  fst (try_suite P r w) = inr res.
Proof.
  rewrite call_result.
  destruct (fst (try_suite P r w)) as [e | v]; intros [= <-] Hok.
  - discriminate Hok.
  - reflexivity.
Qed.

Lemma call_failure (r : Request) (w : World P) (res : pyval) :
  fst (call P r w) = inr res ->
  field res "success" = Some (PyBool false) ->
  (exists e, fst (try_suite P r w) = inl e /\ res = failure_result r e) \/
  fst (try_suite P r w) = inr res.
Proof.
  rewrite call_result.
  destruct (fst (try_suite P r w)) as [e | v]; intros [= <-] Hok.
  - left. now exists e.
  - now right.
Qed.

(** The ways a [try] suite of [backup_database] ends: before the backup
    file is opened, with no file written; at [json.dump], with the file
    left truncated; or at the [return], with the snapshot in the file. *)
Lemma backup_database_try_cases (w : World P) (db_path : string)
    (backup_path : option string) :
  let file := chosen_backup_path P backup_path w in
  let out := backup_database_try P db_path backup_path w in
  (exists e,
      fst out = inl e /\ forall p, artifacts (snd out) p = artifacts w p) \/
  (write_fault w file = None /\
   fst out = inl (Exn TypeError "Object of type bytes is not JSON serializable") /\
   artifacts (snd out) file = Some Truncated) \/
  (write_fault w file = None /\
   exists ts ts2 tables,
     artifacts (snd out) file = Some (Json (backup_value P ts db_path tables)) /\
     json_serializable (backup_value P ts db_path tables) = true /\
     Forall (counted_entry row_dict "data" "row_count") (dict_values tables) /\
     fst out
     = inr (PyDict [("success", PyBool true);
                    ("backup_path", PyStr file);
                    ("source_database", PyStr db_path);
                    ("tables_backed_up", PyInt (len tables));
                    ("total_rows",
                      PyInt (sum (map (stored_count "row_count")
                                    (dict_values tables))));
                    ("timestamp", PyStr (isoformat P ts2))])).
Proof.
  intros file out. subst out.
  destruct (backup_database_try P db_path backup_path w) as [r w'] eqn:Hrun.
  cbn [fst snd].
  unfold backup_database_try in Hrun.
  unfold bind at 1 in Hrun. rewrite default_backup_path_run in Hrun.
  fold file in Hrun.
  set (w1 := match nonempty_text backup_path with Some _ => w | None => tick w end)
    in *.
  assert (Hw1 : (forall p, artifacts w1 p = artifacts w p) /\
                (forall p, write_fault w1 p = write_fault w p)).
  { subst w1. destruct (nonempty_text backup_path); split; reflexivity. }
  destruct Hw1 as (Ha1 & Hf1).
  unfold bind at 1 in Hrun. cbn [now] in Hrun.
  unfold bind at 1 in Hrun.
  match type of Hrun with
  | context [with_connection P db_path ?body (tick w1)] =>
      destruct (with_connection_frame P db_path body (tick w1))
        as (_ & Ha & Hf & _); [intro n; frame_steps P |];
      assert (Hy : yields
                     (fun r => Forall (counted_entry row_dict "data" "row_count")
                                 (dict_values r))
                     (with_connection P db_path body))
        by (apply yields_with_connection; intro n;
            apply yields_then; intro cursor;
            apply yields_then; intro tables;
            apply yields_backup_tables);
      specialize (Hy (tick w1));
      destruct (with_connection P db_path body (tick w1))
        as [[e | tables] w3]
  end; cbn [snd fst tick artifacts write_fault] in *.
  { injection Hrun as <- <-.
    left. exists e. split; [reflexivity |].
    intro p. now rewrite Ha, Ha1. }
  specialize (Hy tables eq_refl).
  unfold bind at 1 in Hrun. unfold write_json in Hrun.
  destruct (write_fault w3 file) as [msg |] eqn:Hfault.
  { injection Hrun as <- <-.
    left. eexists. split; [reflexivity |].
    intro p. now rewrite Ha, Ha1. }
  assert (Hfile : write_fault w file = None)
    by (now rewrite <- Hf1, <- Hf).
  destruct (json_serializable (backup_value P (clock w1) db_path tables))
    eqn:Hjson.
  2:{ injection Hrun as <- <-.
      right. left. split; [exact Hfile |]. split; [reflexivity |].
      cbn [log set_artifact artifacts]. now rewrite String.eqb_refl. }
  unfold bind at 1 in Hrun.
  rewrite (sum_row_counts_counted row_dict _ _ Hy) in Hrun.
  unfold bind in Hrun. cbn [now ret] in Hrun.
  injection Hrun as <- <-.
  right. right. split; [exact Hfile |].
  exists (clock w1). eexists. exists tables.
  split; [cbn [tick log set_artifact artifacts]; now rewrite String.eqb_refl |].
  split; [exact Hjson |].
  split; [exact Hy | reflexivity].
Qed.

End Yielding.

Section Schemas.

Variable P : Platform.

(** What a [try] suite of [get_schema] returns. *)
Lemma yields_get_schema_try (db_path : string) :
  yields
    (fun res =>
       exists tables n ts,
         res = PyDict [("success", PyBool true);
                       ("schema",
                         PyDict [("database_path", PyStr db_path);
                                 ("tables", PyDict tables);
                                 ("table_count", PyInt n);
                                 ("timestamp", PyStr ts)])] /\
         Forall (counted_entry column_entry "columns" "column_count")
           (dict_values tables) /\
         (len tables <= n)%Z)
    (get_schema_try P db_path).
Proof.
  unfold get_schema_try.
  apply yields_with_connection. intro n.
  apply yields_then. intro cursor.
  apply yields_then. intro names.
  apply yields_then. intro ts.
  eapply yields_bind.
  - apply (yields_dict_loop P
             (counted_entry column_entry "columns" "column_count"));
      [| constructor].
    intros table acc.
    apply yields_then. intro cur.
    eapply yields_bind;
      [apply (yields_comprehension P column_entry); apply yields_column_info |].
    intros infos [Hinfos Hlen]. apply yields_ret.
    eexists _, _. split; [reflexivity |].
    exists infos. split; [| exact Hinfos].
    unfold len. now rewrite Hlen.
  - intros tables [Hall Hlen]. apply yields_ret.
    exists tables, (len names), (isoformat P ts).
    split; [reflexivity |]. split; [exact Hall |].
    unfold len. cbn [length] in Hlen. lia.
Qed.

End Schemas.



(** X13.  When the backup file cannot be opened for writing,
    [backup_database] returns a failure result and writes no file. *)
Theorem backup_unwritable_file_fails (P : Platform) (w : World P)
    (db_path : string) (backup_path : option string) (msg : string) :
  write_fault w (chosen_backup_path P backup_path w) = Some msg ->
  exists e,
    fst (backup_database P db_path backup_path w)
      = inr (failure_result (BackupDatabase db_path backup_path) e) /\
    forall p,
      artifacts (snd (backup_database P db_path backup_path w)) p
      = artifacts w p.
Proof.
  intro Hfault.
  change (backup_database P db_path backup_path)
    with (call P (BackupDatabase db_path backup_path)).
  rewrite call_world, call_result. cbn [try_suite].
  destruct (backup_database_try_cases P w db_path backup_path)
    as [(e & He & Ha) | [(Hnone & _) | (Hnone & _)]].
  - exists e. rewrite He. split; [reflexivity | exact Ha].
  - rewrite Hnone in Hfault. discriminate Hfault.
  - rewrite Hnone in Hfault. discriminate Hfault.
Qed.

Lemma backup_unwritable_file_fails_witness :
  exists e,
    fst (backup_database MiniSqlite.platform "db" (Some "/") two_databases)
      = inr (failure_result (BackupDatabase "db" (Some "/")) e) /\
    forall p,
      artifacts (snd (backup_database MiniSqlite.platform "db" (Some "/")
                        two_databases)) p
      = artifacts two_databases p.
Proof.
  exact (backup_unwritable_file_fails MiniSqlite.platform two_databases "db"
           (Some "/") "[Errno 21] Is a directory: '/'" eq_refl).
Defined.



(** X15.  Whatever the engine returns, a successful [get_schema] returns a
    schema whose table entries each store as [column_count] the number of
    the columns they list, every column with the five fields [name],
    [type], [not_null], [default_value] and [primary_key], the two flags
    as booleans; the schema has at most [table_count] entries. *)
Theorem get_schema_structure (P : Platform) (w : World P) (db_path : string)
    (res : pyval) :
  fst (get_schema P db_path w) = inr res ->
  field res "success" = Some (PyBool true) ->
  exists tables n ts,
    res = PyDict [("success", PyBool true);
                  ("schema",
                    PyDict [("database_path", PyStr db_path);
                            ("tables", PyDict tables);
                            ("table_count", PyInt n);
                            ("timestamp", PyStr ts)])] /\
    Forall (counted_entry column_entry "columns" "column_count")
      (dict_values tables) /\
    (len tables <= n)%Z.
Proof.
  intros Hres Hok.
  change (get_schema P db_path) with (call P (GetSchema db_path)) in Hres.
  apply call_success in Hres; [| exact Hok].
  exact (yields_get_schema_try P db_path w res Hres).
Qed.

Lemma get_schema_structure_witness :
  exists tables n ts,
    PyDict
      [("success", PyBool true);
       ("schema",
         PyDict
           [("database_path", PyStr "db");
            ("tables",
              PyDict
                [("t",
                   PyDict
                     [("columns",
                        PyList
                          [PyDict [("name", PyStr "id");
                                   ("type", PyStr "INTEGER");
                                   ("not_null", PyBool false);
                                   ("default_value", PyNone);
                                   ("primary_key", PyBool false)];
                           PyDict [("name", PyStr "name");
                                   ("type", PyStr "TEXT");
                                   ("not_null", PyBool false);
                                   ("default_value", PyNone);
                                   ("primary_key", PyBool false)]]);
                      ("column_count", PyInt 2)])]);
            ("table_count", PyInt 1);
            ("timestamp", PyStr "T0")])]
    = PyDict [("success", PyBool true);
              ("schema",
                PyDict [("database_path", PyStr "db");
                        ("tables", PyDict tables);
                        ("table_count", PyInt n);
                        ("timestamp", PyStr ts)])] /\
    Forall (counted_entry column_entry "columns" "column_count")
      (dict_values tables) /\
    (len tables <= n)%Z.
Proof.
  apply (get_schema_structure MiniSqlite.platform two_databases "db").
  - vm_compute. reflexivity.
  - reflexivity.
Defined.
